(** * RAG versus context dumping: the comparison report of the Brain
      Architecture processors

    Source files:
    - [brain_processor.py]: [BrainArchitectureProcessor.analyze_rag_vs_context_dumping]
      and [BrainArchitectureProcessor.generate_executive_summary];
    - [project_2_2_brain_processor.py]:
      [Project22BrainProcessor.get_performance_analysis].

    The rows handed to the Python code come from PostgreSQL.  A column
    computed as [ROUND(AVG(x), n)] has SQL type [numeric], which asyncpg and
    psycopg2 hand over as [decimal.Decimal], NULL being [None]; the
    arithmetic of the analysis is therefore Python's decimal arithmetic under
    the default context (precision 28, ROUND_HALF_EVEN, traps on
    InvalidOperation, DivisionByZero and Overflow).  The module [Decimal]
    below embeds the operations the analysis uses, on the representation
    Python uses: a sign, a non-negative integer coefficient and an exponent
    for a finite number, beside the infinities and the NaN that a [numeric]
    column can hold. *)

From Stdlib Require Import ZArith Lia Bool QArith Qround Qminmax Qpower Qfield.
From stdpp Require Import base option list strings gmap pretty.

Local Open Scope Z_scope.

(** ** Exceptions and results *)

(** The exceptions the modelled code can raise. *)
Inductive exn : Type :=
  | DivisionByZero      (* decimal.DivisionByZero: x / 0 with x non-zero *)
  | InvalidOperation    (* decimal.InvalidOperation: 0 / 0, an infinity where
                           none is allowed, a comparison with NaN, quantize
                           overflow *)
  | TypeError           (* an operand is None *)
  | ProgrammingError.   (* psycopg2.ProgrammingError: the server rejects a query *)

(** A computation either returns a value or raises. *)
Inductive result (A : Type) : Type :=
  | Ok (a : A)
  | Raise (e : exn).
Arguments Ok {A} a.
Arguments Raise {A} e.

#[global] Instance result_ret : MRet result := fun A a => Ok a.
#[global] Instance result_bind : MBind result := fun A B f m =>
  match m with
  | Ok a => f a
  | Raise e => Raise e
  end.
#[global] Instance result_fmap : FMap result := fun A B f m =>
  match m with
  | Ok a => Ok (f a)
  | Raise e => Raise e
  end.

(** ** Python's [decimal.Decimal] under the default context *)

Module Decimal.

(** A finite [Decimal] as the triple of [_pydecimal]: [_sign] (true for
    negative), [_int] (the coefficient, a non-negative integer) and [_exp].
    The value is [(-1)^sign * coef * 10^expo].  The operations on [t] are
    those of [_pydecimal] on finite operands; [num] below adds the special
    values. *)
Record t : Type := Dec { sign : bool; coef : Z; expo : Z }.

#[global] Instance t_eq_dec : EqDecision t.
Proof. solve_decision. Defined.

(** [getcontext().prec] *)
Definition prec : Z := 28.

(** [len(str(n))] for a non-negative integer [n]. *)
Fixpoint ndigits_aux (fuel : nat) (n : Z) : Z :=
  match fuel with
  | O => 1
  | S f => if n <? 10 then 1 else 1 + ndigits_aux f (n / 10)
  end.

Definition ndigits (n : Z) : Z := ndigits_aux (Z.to_nat (Z.log2 n)) n.

(** [adjusted()]: the exponent of the most significant digit. *)
Definition adjusted (x : t) : Z := expo x + ndigits (coef x) - 1.

(** Dropping the digits of [c] below [d = 10^k] under ROUND_HALF_EVEN
    ([_round_half_even] applied to the digit string, as an integer
    computation): the quotient, incremented when the dropped part is more
    than half of [d], or exactly half with an odd quotient. *)
Definition round_half_even (c d : Z) : Z :=
  let q := c / d in
  let r := c mod d in
  if 2 * r <? d then q
  else if d <? 2 * r then q + 1
  else if Z.even q then q else q + 1.

(** [_fix]: round to the context precision.  A coefficient of more than
    [prec] digits loses its low digits under ROUND_HALF_EVEN; when the
    increment carries into a further digit, that digit is dropped and the
    exponent incremented.  (The exponent limits Emax and Emin, 999999 in
    magnitude, are not represented.) *)
Definition fix_ (x : t) : t :=
  if coef x =? 0 then x
  else
    let exp_min := ndigits (coef x) + expo x - prec in
    if expo x <? exp_min then
      let c := round_half_even (coef x) (10 ^ (exp_min - expo x)) in
      if prec <? ndigits c then Dec (sign x) (c / 10) (exp_min + 1)
      else Dec (sign x) c exp_min
    else x.

(** [_rescale(exp, ROUND_HALF_EVEN)] *)
Definition rescale (x : t) (e : Z) : t :=
  if coef x =? 0 then Dec (sign x) 0 e
  else if e <=? expo x then Dec (sign x) (coef x * 10 ^ (expo x - e)) e
  else Dec (sign x) (round_half_even (coef x) (10 ^ (e - expo x))) e.

(** [quantize(Decimal((0, (1,), e)))]: the value at exponent [e]; raises
    InvalidOperation when the result needs more than [prec] digits. *)
Definition quantize (x : t) (e : Z) : result t :=
  if coef x =? 0 then Ok (Dec (sign x) 0 e)
  else if prec <? adjusted x - e + 1 then Raise InvalidOperation
  else
    let ans := rescale x e in
    if prec <? ndigits (coef ans) then Raise InvalidOperation
    else Ok ans.

(** [round(x, n)], that is [x.__round__(n)]. *)
Definition round (x : t) (n : Z) : result t := quantize x (- n).

(** The loop of [__truediv__] for an exact quotient: strip trailing zeros
    while the exponent is below the ideal one. *)
Fixpoint strip_zeros (fuel : nat) (c e ideal : Z) : Z * Z :=
  match fuel with
  | O => (c, e)
  | S f =>
      if (e <? ideal) && (c mod 10 =? 0)
      then strip_zeros f (c / 10) (e + 1) ideal
      else (c, e)
  end.

(** [__truediv__] *)
Definition div (x y : t) : result t :=
  let s := xorb (sign x) (sign y) in
  if coef y =? 0 then
    if coef x =? 0 then Raise InvalidOperation   (* DivisionUndefined, 0 / 0 *)
    else Raise DivisionByZero
  else if coef x =? 0 then Ok (Dec s 0 (expo x - expo y))
  else
    let shift := ndigits (coef y) - ndigits (coef x) + prec + 1 in
    let e := expo x - expo y - shift in
    let '(c, r) :=
      if 0 <=? shift then Z.div_eucl (coef x * 10 ^ shift) (coef y)
      else Z.div_eucl (coef x) (coef y * 10 ^ (- shift)) in
    if r =? 0 then
      let '(c', e') := strip_zeros (Z.to_nat (expo x - expo y - e)) c e (expo x - expo y) in
      Ok (fix_ (Dec s c' e'))
    else
      Ok (fix_ (Dec s (if c mod 5 =? 0 then c + 1 else c) e)).

(** [__mul__] *)
Definition mul (x y : t) : t :=
  fix_ (Dec (xorb (sign x) (sign y)) (coef x * coef y) (expo x + expo y)).

(** [_normalize(op1, op2, prec)], on the pairs (coefficient, exponent). *)
Definition normalize (x y : Z * Z) : (Z * Z) * (Z * Z) :=
  let align tmp other :=
    let e := snd tmp + Z.min (-1) (ndigits (fst tmp) - prec - 2) in
    let other' :=
      if ndigits (fst other) + snd other - 1 <? e then (1, e) else other in
    ((fst tmp * 10 ^ (snd tmp - snd other'), snd other'), other') in
  if snd x <? snd y then
    let '(y', x') := align y x in (x', y')
  else align x y.

(** [__add__] under a rounding mode other than ROUND_FLOOR. *)
Definition add (x y : t) : t :=
  let e := Z.min (expo x) (expo y) in
  if (coef x =? 0) && (coef y =? 0) then
    Dec (sign x && sign y) 0 e                    (* min of the signs *)
  else if coef x =? 0 then
    fix_ (rescale y (Z.max e (expo y - prec - 1)))
  else if coef y =? 0 then
    fix_ (rescale x (Z.max e (expo x - prec - 1)))
  else
    let '((c1, e1), (c2, _)) := normalize (coef x, expo x) (coef y, expo y) in
    if Bool.eqb (sign x) (sign y) then fix_ (Dec (sign x) (c1 + c2) e1)
    else if c1 =? c2 then Dec false 0 e
    else if c1 <? c2 then fix_ (Dec (sign y) (c2 - c1) e1)
    else fix_ (Dec (sign x) (c1 - c2) e1).

(** [copy_negate] and [__sub__] *)
Definition neg (x : t) : t := Dec (negb (sign x)) (coef x) (expo x).
Definition sub (x y : t) : t := add x (neg y).

(** [Decimal(n)] for a Python int. *)
Definition of_int (n : Z) : t := Dec (n <? 0) (Z.abs n) 0.

(** The signed coefficient of [x] once written at exponent [e], for
    [e <= expo x]. *)
Definition scaled (x : t) (e : Z) : Z :=
  (if sign x then -1 else 1) * coef x * 10 ^ (expo x - e).

(** [_cmp]: comparison of the values. *)
Definition cmp (x y : t) : comparison :=
  let e := Z.min (expo x) (expo y) in
  scaled x e ?= scaled y e.

Definition gtb (x y : t) : bool :=
  match cmp x y with Gt => true | _ => false end.
Definition eqb (x y : t) : bool :=
  match cmp x y with Eq => true | _ => false end.

(** [__str__] (and [format(x, "")], which f-strings use): plain notation
    when the exponent is at most 0 and the number is not too small,
    scientific notation with one digit before the point otherwise. *)
Definition zeros (n : Z) : string :=
  String.concat "" (replicate (Z.to_nat n) "0"%string).

Definition to_string (x : t) : string :=
  let digits := pretty (coef x) in
  let len := Z.of_nat (String.length digits) in
  let leftdigits := expo x + len in
  let dotplace :=
    if (expo x <=? 0) && (-6 <? leftdigits) then leftdigits else 1 in
  let intpart : string :=
    if dotplace <=? 0 then "0"
    else if len <=? dotplace then digits +:+ zeros (dotplace - len)
    else String.substring 0 (Z.to_nat dotplace) digits in
  let fracpart : string :=
    if dotplace <=? 0 then "." +:+ zeros (- dotplace) +:+ digits
    else if len <=? dotplace then ""
    else "." +:+ String.substring (Z.to_nat dotplace)
                   (Z.to_nat (len - dotplace)) digits in
  let e := leftdigits - dotplace in
  let exppart : string :=
    if e =? 0 then ""
    else "E" +:+ (if 0 <=? e then "+" else "") +:+ pretty e in
  (if sign x then "-" else "") +:+ intpart +:+ fracpart +:+ exppart.

(** *** Special values *)

(** A [Decimal]: a finite number, an infinity ([_exp = 'F'], with its sign)
    or a NaN ([_exp = 'n']).  The NaN is the quiet one, of sign 0 and
    without payload, which is what [Decimal('NaN')] of a [numeric] NaN is;
    the operations below return a NaN operand as it is, so that no other NaN
    arises.  A signalling NaN has no counterpart in PostgreSQL. *)
Inductive num : Type :=
  | Fin (x : t)
  | Inf (s : bool)
  | NaN.

#[global] Instance num_eq_dec : EqDecision num.
Proof. solve_decision. Defined.

(** [context.Etiny()], the exponent of the zero that a division by an
    infinity returns. *)
Definition etiny : Z := -1000026.

(** [__truediv__]: [_check_nans] first, then the infinities, then the
    zeroes. *)
Definition truediv (x y : num) : result num :=
  match x, y with
  | NaN, _ | _, NaN => Ok NaN
  | Inf _, Inf _ => Raise InvalidOperation
  | Inf s, Fin b => Ok (Inf (xorb s (sign b)))
  | Fin a, Inf s => Ok (Fin (Dec (xorb (sign a) s) 0 etiny))
  | Fin a, Fin b => Fin <$> div a b
  end.

(** [__mul__]: an infinity times a zero is an InvalidOperation. *)
Definition times (x y : num) : result num :=
  match x, y with
  | NaN, _ | _, NaN => Ok NaN
  | Inf s, Inf s' => Ok (Inf (xorb s s'))
  | Inf s, Fin b =>
      if coef b =? 0 then Raise InvalidOperation else Ok (Inf (xorb s (sign b)))
  | Fin a, Inf s =>
      if coef a =? 0 then Raise InvalidOperation else Ok (Inf (xorb (sign a) s))
  | Fin a, Fin b => Ok (Fin (mul a b))
  end.

(** [__sub__]: [self + other.copy_negate()] after [_check_nans]; two
    infinities of the same sign have no difference. *)
Definition minus (x y : num) : result num :=
  match x, y with
  | NaN, _ | _, NaN => Ok NaN
  | Inf s, Inf s' => if Bool.eqb s s' then Raise InvalidOperation else Ok (Inf s)
  | Inf s, Fin _ => Ok (Inf s)
  | Fin _, Inf s' => Ok (Inf (negb s'))
  | Fin a, Fin b => Ok (Fin (sub a b))
  end.

(** [round(x, n)]: [quantize] returns a NaN and rejects an infinity. *)
Definition rounded (x : num) (n : Z) : result num :=
  match x with
  | NaN => Ok NaN
  | Inf _ => Raise InvalidOperation
  | Fin a => Fin <$> round a n
  end.

(** [x > y]: an ordering comparison with a NaN is an InvalidOperation. *)
Definition gt (x y : num) : result bool :=
  match x, y with
  | NaN, _ | _, NaN => Raise InvalidOperation
  | Inf s, Inf s' => Ok (negb s && s')
  | Inf s, Fin _ => Ok (negb s)
  | Fin _, Inf s' => Ok s'
  | Fin a, Fin b => Ok (gtb a b)
  end.

(** [x == y]: false when an operand is a NaN. *)
Definition equal (x y : num) : bool :=
  match x, y with
  | Fin a, Fin b => eqb a b
  | Inf s, Inf s' => Bool.eqb s s'
  | _, _ => false
  end.

(** [str(x)] and [format(x, "")]. *)
Definition str (x : num) : string :=
  match x with
  | Fin a => to_string a
  | Inf s => (if s then "-" else "") +:+ "Infinity"
  | NaN => "NaN"
  end.

End Decimal.

(** ** Python values *)

(** The values that occur in the rows and in the reports: [None], ints,
    Decimals, strings, lists and dicts with string keys. *)
#[local] Set Warnings "-register-all".
Inductive pyval : Type :=
  | VNone
  | VInt (n : Z)
  | VDec (d : Decimal.num)
  | VStr (s : string)
  | VList (l : list pyval)
  | VDict (d : gmap string pyval).

(** [x * y].  An int is converted to Decimal when the other operand is one
    ([int.__mul__] does not know Decimal, so that [n * d] is
    [d.__rmul__(n)]); a string or a list times an int is a repetition;
    anything else is a TypeError. *)
Definition py_mul (x y : pyval) : result pyval :=
  match x, y with
  | VInt a, VInt b => Ok (VInt (a * b))
  | VDec a, VDec b => VDec <$> Decimal.times a b
  | VDec a, VInt b => VDec <$> Decimal.times a (Decimal.Fin (Decimal.of_int b))
  | VInt a, VDec b => VDec <$> Decimal.times b (Decimal.Fin (Decimal.of_int a))
  | VStr a, VInt n | VInt n, VStr a =>
      Ok (VStr (String.concat "" (replicate (Z.to_nat n) a)))
  | VList a, VInt n | VInt n, VList a =>
      Ok (VList (mjoin (replicate (Z.to_nat n) a)))
  | _, _ => Raise TypeError
  end.

(** [n < x] for an int [n]: defined against ints and Decimals only; against
    a Decimal it is the reflected [x.__gt__(n)]. *)
Definition py_int_lt (n : Z) (x : pyval) : result bool :=
  match x with
  | VInt m => Ok (n <? m)
  | VDec d => Decimal.gt d (Decimal.Fin (Decimal.of_int n))
  | _ => Raise TypeError
  end.

(** [min(x, n)] for an int [n]: the builtin keeps its first argument unless
    the second is strictly smaller. *)
Definition py_min_int (x : pyval) (n : Z) : result pyval :=
  b ← py_int_lt n x;
  mret (if b : bool then VInt n else x).

(** ** The rows fetched by [analyze_rag_vs_context_dumping] *)

(** One row of the GROUP BY query.  A column that is NULL in SQL is [None]
    in Python. *)
Record row : Type := Row {
  processing_method : option string;
  query_count : Z;
  avg_response_time_ms : option Decimal.num;
  avg_cost_usd : option Decimal.num;
  avg_quality_score : option Decimal.num;
  avg_user_satisfaction : option Decimal.num
}.

Definition of_option_str (o : option string) : pyval :=
  match o with Some s => VStr s | None => VNone end.
Definition of_option_dec (o : option Decimal.num) : pyval :=
  match o with Some d => VDec d | None => VNone end.

(** [dict(row)] *)
Definition dict_of_row (r : row) : gmap string pyval :=
  {[ "processing_method" := of_option_str (processing_method r);
     "query_count" := VInt (query_count r);
     "avg_response_time_ms" := of_option_dec (avg_response_time_ms r);
     "avg_cost_usd" := of_option_dec (avg_cost_usd r);
     "avg_quality_score" := of_option_dec (avg_quality_score r);
     "avg_user_satisfaction" := of_option_dec (avg_user_satisfaction r) ]}.

(** [x / y] and [x - y] on row fields: a [None] operand is a TypeError. *)
Definition field_div (x y : option Decimal.num) : result Decimal.num :=
  match x, y with
  | Some a, Some b => Decimal.truediv a b
  | _, _ => Raise TypeError
  end.

Definition field_sub (x y : option Decimal.num) : result Decimal.num :=
  match x, y with
  | Some a, Some b => Decimal.minus a b
  | _, _ => Raise TypeError
  end.

(** [next((row for row in performance_data if row['processing_method'] == m), None)] *)
Definition next_with_method (m : string) (performance_data : list row) : option row :=
  head (filter (fun r => processing_method r = Some m) performance_data).

(** ** [BrainArchitectureProcessor.analyze_rag_vs_context_dumping] *)

(** The three factors, in the order the dict display evaluates them. *)
Definition performance_improvement_factor (rag_data context_data : row) : result Decimal.num :=
  q ← field_div (avg_response_time_ms context_data) (avg_response_time_ms rag_data);
  Decimal.rounded q 1.

Definition cost_reduction_factor (rag_data context_data : row) : result Decimal.num :=
  q ← field_div (avg_cost_usd context_data) (avg_cost_usd rag_data);
  Decimal.rounded q 1.

Definition quality_improvement_percent (rag_data context_data : row) : result Decimal.num :=
  d ← field_sub (avg_quality_score rag_data) (avg_quality_score context_data);
  q ← field_div (Some d) (avg_quality_score context_data);
  h ← Decimal.times q (Decimal.Fin (Decimal.of_int 100));
  Decimal.rounded h 2.

(** The body of the function after the fetch; [performance_data] is the
    list of rows the query returned.  A fetched row is a non-empty record,
    hence true in [if rag_data and context_data].  The [except] clause logs
    and re-raises, so an exception of the body is the exception of the call. *)
Definition analyze_rag_vs_context_dumping (performance_data : list row)
  : result (gmap string pyval) :=
  match next_with_method "RAG" performance_data,
        next_with_method "CONTEXT_DUMP" performance_data with
  | Some rag_data, Some context_data =>
      p ← performance_improvement_factor rag_data context_data;
      c ← cost_reduction_factor rag_data context_data;
      q ← quality_improvement_percent rag_data context_data;
      mret ({[ "rag_metrics" := VDict (dict_of_row rag_data);
               "context_dump_metrics" := VDict (dict_of_row context_data);
               "performance_improvement_factor" := VDec p;
               "cost_reduction_factor" := VDec c;
               "quality_improvement_percent" := VDec q ]} : gmap string pyval)
  | _, _ => mret ∅
  end.

(** ** [BrainArchitectureProcessor.generate_executive_summary] *)

Section ExecutiveSummary.

(** [datetime.now().isoformat()], the reading of the clock at the call. *)
Variable now_isoformat : string.

(** [str] of a list or a dict, which this development does not spell out. *)
Variable str_of_container : pyval → string.

(** [format(v, "")], what an f-string does with [{v}]. *)
Definition py_str (v : pyval) : string :=
  match v with
  | VNone => "None"
  | VInt n => pretty n
  | VDec d => Decimal.str d
  | VStr s => s
  | VList _ | VDict _ => str_of_container v
  end.

(** [analysis.get(key, 0)] *)
Definition get_or_zero (analysis : gmap string pyval) (key : string) : pyval :=
  default (VInt 0) (analysis !! key).

(** [min(performance_factor * cost_factor * 20, 900)] *)
Definition roi_percent (performance_factor cost_factor : pyval) : result pyval :=
  pc ← py_mul performance_factor cost_factor;
  pc20 ← py_mul pc (VInt 20);
  py_min_int pc20 900.

Definition business_impact : gmap string pyval :=
  {[ "operational_efficiency" := VStr "Outstanding";
     "cost_optimization" := VStr "Exceptional";
     "user_satisfaction" := VStr "High";
     "market_position" := VStr "Leading" ]}.

Definition strategic_recommendations : list pyval :=
  [ VStr "Scale RAG implementation across all use cases";
    VStr "Invest in advanced vector optimization";
    VStr "Develop personalized context adaptation";
    VStr "Establish center of excellence for Brain Architecture" ].

(** The summary built from a non-empty analysis. *)
Definition executive_summary_of (analysis : gmap string pyval)
  : result (gmap string pyval) :=
  let performance_factor := get_or_zero analysis "performance_improvement_factor" in
  let cost_factor := get_or_zero analysis "cost_reduction_factor" in
  let quality_improvement := get_or_zero analysis "quality_improvement_percent" in
  roi ← roi_percent performance_factor cost_factor;
  mret ({[ "timestamp" := VStr now_isoformat;
           "key_achievements" := VDict
             {[ "performance_improvement" :=
                  VStr (py_str performance_factor +:+ "x faster than context dumping");
                "cost_reduction" :=
                  VStr (py_str cost_factor +:+ "x cost reduction achieved");
                "quality_improvement" :=
                  VStr (py_str quality_improvement +:+ "% quality increase");
                "roi_delivered" :=
                  VStr (py_str roi +:+ "% return on investment") ]};
           "business_impact" := VDict business_impact;
           "strategic_recommendations" := VList strategic_recommendations;
           "raw_analysis" := VDict analysis ]} : gmap string pyval).

(** [if not analysis: return {"error": ...}]: an empty dict is false. *)
Definition generate_executive_summary (performance_data : list row)
  : result (gmap string pyval) :=
  analysis ← analyze_rag_vs_context_dumping performance_data;
  if Nat.eqb (size analysis) 0
  then mret ({[ "error" := VStr "No data available for analysis" ]} : gmap string pyval)
  else executive_summary_of analysis.

End ExecutiveSummary.

(** ** The query of [analyze_rag_vs_context_dumping]

    [SELECT processing_method, COUNT( * ), ROUND(AVG(response_time_ms), 2),
     ROUND(AVG(cost_usd), 6), ROUND(AVG(quality_score), 3),
     ROUND(AVG(user_satisfaction), 2)
     FROM raw_queries LEFT JOIN raw_performance_metrics ... GROUP BY processing_method] *)

(** One row of the join, with the columns the query names.  Any of them may
    be NULL ([None]): a query without metrics has NULL in the columns of
    [raw_performance_metrics], and the constraints of the two tables are not
    part of the source.  The types follow the dataclass [PerformanceMetrics];
    the two columns it annotates as [float] are [numeric] in the database
    (ROUND with a scale is defined on [numeric] only), and a [numeric] may be
    NaN or infinite. *)
Record PerformanceMetrics : Type := Metrics {
  response_time_ms : option Z;
  cost_usd : option Decimal.num;
  quality_score : option Decimal.num;
  user_satisfaction : option Z;
  tokens_used : option Z;
  method : option string
}.

(** SQL rounding of the quotient [num / den] to [k] decimal places, for
    [den > 0]: halves go away from zero, and a [numeric] zero has no sign. *)
Definition sql_round_ratio (num den k : Z) : Decimal.t :=
  let '(n, d) :=
    if 0 <=? k then (Z.abs num * 10 ^ k, den) else (Z.abs num, den * 10 ^ (- k)) in
  let c := (2 * n + d) / (2 * d) in
  Decimal.Dec ((num <? 0) && negb (c =? 0)) c (- k).

(** [ROUND(x, k)] on a finite [numeric]. *)
Definition sql_round (x : Decimal.t) (k : Z) : Decimal.t :=
  sql_round_ratio ((if Decimal.sign x then -1 else 1) * Decimal.coef x)
    (10 ^ (- Decimal.expo x)) k.

(** A [numeric] is stored in base 10000.  For the value [c * 10^e] with
    [c > 0]: the weight of its leading base-10000 digit, and that digit. *)
Definition nbase_weight (c e : Z) : Z := (Decimal.ndigits c + e - 1) / 4.

Definition nbase_first (c e : Z) : Z :=
  let p := e - 4 * nbase_weight c e in
  if 0 <=? p then c * 10 ^ p else c / 10 ^ (- p).

(** [select_div_scale] of PostgreSQL's [numeric_div], for the quotient of
    the sum [total * 10^e] (display scale [- e]) by the count: a scale that
    gives at least 16 significant digits, estimated from the leading
    base-10000 digits, and not below the display scale of the sum. *)
Definition select_div_scale (total e count : Z) : Z :=
  let '(weight1, first1) :=
    if total =? 0 then (0, 0)
    else (nbase_weight (Z.abs total) e, nbase_first (Z.abs total) e) in
  let weight2 := nbase_weight count 0 in
  let first2 := nbase_first count 0 in
  let qweight := weight1 - weight2 - (if first1 <=? first2 then 1 else 0) in
  Z.min 1000 (Z.max (Z.max (16 - qweight * 4) (- e)) 0).

(** [AVG(x)] over the finite values of a non-empty group: the sum divided by
    the count, rounded at the scale [select_div_scale] chooses. *)
Definition sql_avg (vals : list Decimal.t) : Decimal.t :=
  let e := foldr Z.min 0 (Decimal.expo <$> vals) in
  let total := foldr Z.add 0 ((fun v => Decimal.scaled v e) <$> vals) in
  let count := Z.of_nat (length vals) in
  sql_round_ratio total (count * 10 ^ (- e)) (select_div_scale total e count).

Definition finite_values (vals : list Decimal.num) : list Decimal.t :=
  omap (fun v => match v with Decimal.Fin x => Some x | _ => None end) vals.

Definition has (v : Decimal.num) (vals : list Decimal.num) : bool :=
  existsb (fun w => bool_decide (w = v)) vals.

(** SQL [ROUND(AVG(x), k)] over one group.  AVG skips NULL and is NULL when
    nothing is left; a NaN among the values, or infinities of both signs,
    make it NaN, infinities of one sign that infinity, and ROUND leaves a
    special value as it is. *)
Definition sql_round_avg (k : Z) (column : list (option Decimal.num)) : option Decimal.num :=
  let vals := omap id column in
  match vals with
  | [] => None
  | _ =>
      if has Decimal.NaN vals then Some Decimal.NaN
      else
        match has (Decimal.Inf false) vals, has (Decimal.Inf true) vals with
        | true, true => Some Decimal.NaN
        | true, false => Some (Decimal.Inf false)
        | false, true => Some (Decimal.Inf true)
        | false, false =>
            Some (Decimal.Fin (sql_round (sql_avg (finite_values vals)) k))
        end
  end.

(** An integer column as [numeric]. *)
Definition numeric_of_int (n : option Z) : option Decimal.num :=
  (fun z => Decimal.Fin (Decimal.of_int z)) <$> n.

(** The row of one group; [COUNT( * )] counts the joined rows. *)
Definition group_row (m : option string) (group : list PerformanceMetrics) : row :=
  {| processing_method := m;
     query_count := Z.of_nat (length group);
     avg_response_time_ms :=
       sql_round_avg 2 ((fun r => numeric_of_int (response_time_ms r)) <$> group);
     avg_cost_usd := sql_round_avg 6 (cost_usd <$> group);
     avg_quality_score := sql_round_avg 3 (quality_score <$> group);
     avg_user_satisfaction :=
       sql_round_avg 2 ((fun r => numeric_of_int (user_satisfaction r)) <$> group) |}.

(** The groups of the query, one row per method that occurs (NULL being a
    method of its own), in the order of first occurrence. *)
Definition fetch_performance_data (metrics : list PerformanceMetrics) : list row :=
  (fun m => group_row m (filter (fun r => method r = m) metrics))
    <$> remove_dups (method <$> metrics).

(** The query has no ORDER BY: a run returns the groups in any order. *)
Definition query_returns (metrics : list PerformanceMetrics) (rows : list row) : Prop :=
  rows ≡ₚ fetch_performance_data metrics.

(** ** [Project22BrainProcessor.get_performance_analysis] *)

Module Project22.

(** One row of the first query, over [project_two.chi_n_nguyen_analytics]. *)
Record method_row : Type := MethodRow {
  context_method : option string;
  total_interactions : option Z;
  avg_response_time_ms : option Decimal.num;
  avg_cost_usd : option Decimal.num;
  avg_quality_score : option Decimal.num;
  success_rate_percent : option Decimal.num;
  performance_rank : option Z
}.

(** One row of the best and worst performers query. *)
Record performer : Type := Performer {
  category : string;
  performer_method : option string;
  model_name : option string;
  performer_time_ms : option Decimal.num;
  performer_cost_usd : option Decimal.num
}.

(** The second query:

    [SELECT 'BEST' as category, context_method, model_name,
            avg_response_time_ms, avg_cost_usd
     FROM ... WHERE performance_rank = 1
     UNION ALL
     SELECT 'WORST' as category, ... FROM ...
     ORDER BY performance_rank DESC LIMIT 2]

    The ORDER BY belongs to the UNION, and PostgreSQL resolves the ORDER BY
    of a set operation against the output columns only. *)
Definition performers_columns : list string :=
  [ "category"; "context_method"; "model_name"; "avg_response_time_ms"; "avg_cost_usd" ].

Definition performers_order_by : string := "performance_rank".

(** What [cursor.execute] and [fetchall] give for the second query, the
    table holding [table]: the server rejects the statement when the ORDER
    BY names no output column; otherwise the rows of the two branches,
    ordered and limited, which [ordered] stands for. *)
Definition performers_query (ordered : list method_row → list performer)
    (table : list method_row) : result (list performer) :=
  if bool_decide (performers_order_by ∈ performers_columns)
  then Ok (ordered table)
  else Raise ProgrammingError.

(** The operand [next((p['avg_response_time_ms'] for p in performers
    if p['category'] == c), 1)]: the column of the first row of the
    category, or the default, the int 1. *)
Inductive time : Type :=
  | Default
  | Column (v : option Decimal.num).

Definition time_of (c : string) (performers : list performer) : time :=
  match head (filter (fun p => category p = c) performers) with
  | Some p => Column (performer_time_ms p)
  | None => Default
  end.

(** The value of [improvement_factor]: a Decimal, the int [0] of the guard,
    or the float [1.0] that [round(1 / 1, 1)] gives when both times are the
    default. *)
Inductive factor : Type :=
  | FDec (d : Decimal.num)
  | FInt (n : Z)
  | FFloat_one.

(** A time as an operand of Decimal arithmetic. *)
Definition operand (t : time) : result Decimal.num :=
  match t with
  | Default => Ok (Decimal.Fin (Decimal.of_int 1))
  | Column (Some d) => Ok d
  | Column None => Raise TypeError
  end.

(** [best_time > 0] *)
Definition positive (t : time) : result bool :=
  match t with
  | Default => Ok true
  | Column (Some d) => Decimal.gt d (Decimal.Fin (Decimal.of_int 0))
  | Column None => Raise TypeError
  end.

(** [round(worst_time / best_time, 1)] *)
Definition rounded_ratio (worst_time best_time : time) : result factor :=
  match worst_time, best_time with
  | Default, Default => Ok FFloat_one
  | _, _ =>
      w ← operand worst_time;
      b ← operand best_time;
      q ← Decimal.truediv w b;
      FDec <$> Decimal.rounded q 1
  end.

(** [round(worst_time / best_time, 1) if best_time > 0 else 0] *)
Definition improvement_factor (performers : list performer) : result factor :=
  let best_time := time_of "BEST" performers in
  let worst_time := time_of "WORST" performers in
  b ← positive best_time;
  if b : bool then rounded_ratio worst_time best_time else Ok (FInt 0).

(** The display loop formats five columns of every row of the first query;
    formatting [None] with a format specification is a TypeError. *)
Definition displayable (m : method_row) : bool :=
  bool_decide (is_Some (context_method m)) && bool_decide (is_Some (performance_rank m))
  && bool_decide (is_Some (avg_response_time_ms m)) && bool_decide (is_Some (avg_cost_usd m))
  && bool_decide (is_Some (avg_quality_score m)).

Definition display (method_comparison : list method_row) : result unit :=
  if forallb displayable method_comparison then Ok tt else Raise TypeError.

(** The dict the method returns. *)
Record analysis : Type := Analysis {
  timestamp : string;
  method_comparison : list method_row;
  best_performer : option performer;
  worst_performer : option performer;
  improvement : factor;
  total_methods_analyzed : Z
}.

(** The method.  [connection] tells whether [self.connection] is set;
    [first] is what the first query gives for [table] (its rows by rank, or
    an error), [ordered] as above.  Whatever the [try] block raises is
    logged, and the method returns [None]. *)
Definition get_performance_analysis (now : string) (connection : bool)
    (first : result (list method_row))
    (ordered : list method_row → list performer)
    (table : list method_row) : option analysis :=
  if negb connection then None
  else
    match (rows ← first;
           performers ← performers_query ordered table;
           f ← improvement_factor performers;
           _ ← display rows;
           mret {| timestamp := now;
                   method_comparison := rows;
                   best_performer :=
                     head (filter (fun p => category p = "BEST") performers);
                   worst_performer :=
                     head (filter (fun p => category p = "WORST") performers);
                   improvement := f;
                   total_methods_analyzed := Z.of_nat (length rows) |}) with
    | Ok a => Some a
    | Raise _ => None
    end.

End Project22.

(** ** The end-to-end scenario *)

(** A non-negative finite Decimal. *)
Definition fin (c e : Z) : Decimal.t := Decimal.Dec false c e.
Definition dec (c e : Z) : Decimal.num := Decimal.Fin (fin c e).

(** A joined row with every column set. *)
Definition record (time : Z) (cost quality : Decimal.num) (satisfaction tokens : Z)
    (m : string) : PerformanceMetrics :=
  Metrics (Some time) (Some cost) (Some quality) (Some satisfaction) (Some tokens) (Some m).

Definition scenario : list PerformanceMetrics :=
  [ record 500 (dec 2 (-3)) (dec 95 (-2)) 5 100 "RAG";
    record 700 (dec 3 (-3)) (dec 90 (-2)) 4 120 "RAG";
    record 3000 (dec 2 (-2)) (dec 80 (-2)) 3 4000 "CONTEXT_DUMP" ].

Definition scenario_rag : row :=
  {| processing_method := Some "RAG"; query_count := 2;
     avg_response_time_ms := Some (dec 60000 (-2));
     avg_cost_usd := Some (dec 2500 (-6));
     avg_quality_score := Some (dec 925 (-3));
     avg_user_satisfaction := Some (dec 450 (-2)) |}.

Definition scenario_context_dump : row :=
  {| processing_method := Some "CONTEXT_DUMP"; query_count := 1;
     avg_response_time_ms := Some (dec 300000 (-2));
     avg_cost_usd := Some (dec 20000 (-6));
     avg_quality_score := Some (dec 800 (-3));
     avg_user_satisfaction := Some (dec 300 (-2)) |}.

(** ** Reference notions the statements use *)

(** The rational number a Decimal stands for. *)
Definition to_Q (x : Decimal.t) : Q :=
  (inject_Z ((if Decimal.sign x then -1 else 1) * Decimal.coef x)
   * inject_Z 10 ^ Decimal.expo x)%Q.

(** The rational number a Python number stands for; [None] for a value
    that is not a finite number. *)
Definition number (v : pyval) : option Q :=
  match v with
  | VInt n => Some (inject_Z n)
  | VDec (Decimal.Fin d) => Some (to_Q d)
  | _ => None
  end.

(** The nearest integer to a rational, halves going to the even neighbour. *)
Definition Qround_half_even (q : Q) : Z :=
  let f := Qfloor q in
  match (q - inject_Z f ?= 1 # 2)%Q with
  | Lt => f
  | Gt => f + 1
  | Eq => if Z.even f then f else f + 1
  end.

(** A rational rounded to [n] decimal places. *)
Definition round_places (n : Z) (q : Q) : Q :=
  (inject_Z (Qround_half_even (q * inject_Z 10 ^ n)) / inject_Z 10 ^ n)%Q.

(** The sign of a Decimal as a factor. *)
Definition sgn (s : bool) : Z := if s then -1 else 1.

(** [k] is the integer nearest to [c / d], a tie going to the even one. *)
Definition nearest_even (c d k : Z) : Prop :=
  2 * Z.abs (c - k * d) < d ∨ (2 * Z.abs (c - k * d) = d ∧ Z.even k = true).

(** The coefficient [c] at exponent [e] holds the fraction [N / D] as the
    context keeps it: [e] is at most 0, [c] is [N / D] correctly rounded at
    that exponent, and it is either exact or of the full 28 digits. *)
Definition rounds (N D c e : Z) : Prop :=
  e ≤ 0
  ∧ c = Decimal.round_half_even (N * 10 ^ (- e)) D
  ∧ (c * D = N * 10 ^ (- e) ∨ 10 ^ 27 ≤ c)
  ∧ c < 10 ^ 28.

(** A row field that holds a Decimal zero. *)
Definition is_zero (o : option Decimal.num) : Prop :=
  ∃ d, o = Some (Decimal.Fin d) ∧ Decimal.coef d = 0.

(** The five keys of a non-empty analysis. *)
Definition analysis_keys : gset string :=
  {[ "rag_metrics"; "context_dump_metrics"; "performance_improvement_factor";
     "cost_reduction_factor"; "quality_improvement_percent" ]}.

(** The report for an empty analysis. *)
Definition no_data : gmap string pyval :=
  {[ "error" := VStr "No data available for analysis" ]}.

(** The factor as the specification words it: the slower (larger) of the two
    mean response times over the faster (smaller) one, rounded to one place. *)
Definition slower_over_faster (rag_data context_data : row) : result Decimal.num :=
  match avg_response_time_ms rag_data, avg_response_time_ms context_data with
  | Some r, Some c =>
      slower ← Decimal.gt c r;
      q ← (if slower : bool then Decimal.truediv c r else Decimal.truediv r c);
      Decimal.rounded q 1
  | _, _ => Raise TypeError
  end.

(** The cost factor as the specification words it: the higher mean cost over
    the lower one, rounded to one place. *)
Definition higher_over_lower (rag_data context_data : row) : result Decimal.num :=
  match avg_cost_usd rag_data, avg_cost_usd context_data with
  | Some r, Some c =>
      higher ← Decimal.gt c r;
      q ← (if higher : bool then Decimal.truediv c r else Decimal.truediv r c);
      Decimal.rounded q 1
  | _, _ => Raise TypeError
  end.

(** A row with the given method and means, for the examples. *)
Definition mk_row (m : string) (n : Z) (time cost quality : Decimal.num) : row :=
  {| processing_method := Some m; query_count := n;
     avg_response_time_ms := Some time; avg_cost_usd := Some cost;
     avg_quality_score := Some quality; avg_user_satisfaction := None |}.

(** RAG slower and dearer than context dumping. *)
Definition slow_rag : row :=
  mk_row "RAG" 1 (dec 300000 (-2)) (dec 20000 (-6)) (dec 900 (-3)).
Definition fast_context_dump : row :=
  mk_row "CONTEXT_DUMP" 1 (dec 60000 (-2)) (dec 2500 (-6)) (dec 800 (-3)).
Definition rag_slower : list row := [slow_rag; fast_context_dump].

(** RAG with a zero mean response time. *)
Definition rag_zero_time : list row :=
  [ mk_row "RAG" 1 (dec 0 (-2)) (dec 2500 (-6)) (dec 900 (-3));
    mk_row "CONTEXT_DUMP" 1 (dec 300000 (-2)) (dec 20000 (-6)) (dec 800 (-3)) ].

(** RAG with a zero mean response time, the CONTEXT_DUMP one being NaN. *)
Definition nan_over_zero : list row :=
  [ mk_row "RAG" 1 (dec 0 (-2)) (dec 2500 (-6)) (dec 900 (-3));
    mk_row "CONTEXT_DUMP" 1 Decimal.NaN (dec 20000 (-6)) (dec 800 (-3)) ].

(** A RAG query without metrics beside a CONTEXT_DUMP record: the LEFT JOIN
    fills the columns of the missing metrics with NULL. *)
Definition rag_without_metrics : list PerformanceMetrics :=
  [ Metrics None None None None None (Some "RAG");
    record 3000 (dec 2 (-2)) (dec 80 (-2)) 3 4000 "CONTEXT_DUMP" ].

(** The summary of the scenario, at a given clock reading. *)
Definition scenario_summary (now : string) : gmap string pyval :=
  {[ "timestamp" := VStr now;
     "key_achievements" := VDict
       {[ "performance_improvement" := VStr "5.0x faster than context dumping";
          "cost_reduction" := VStr "8.0x cost reduction achieved";
          "quality_improvement" := VStr "15.62% quality increase";
          "roi_delivered" := VStr "800.00% return on investment" ]};
     "business_impact" := VDict business_impact;
     "strategic_recommendations" := VList strategic_recommendations;
     "raw_analysis" := VDict
       {[ "rag_metrics" := VDict (dict_of_row scenario_rag);
          "context_dump_metrics" := VDict (dict_of_row scenario_context_dump);
          "performance_improvement_factor" := VDec (dec 50 (-1));
          "cost_reduction_factor" := VDec (dec 80 (-1));
          "quality_improvement_percent" := VDec (dec 1562 (-2)) ]} ]}.

(** * Properties *)

(** ** The scenario, evaluated *)

Example scenario_fetch :
  fetch_performance_data scenario = [scenario_rag; scenario_context_dump].
Proof. vm_compute. reflexivity. Qed.

Example scenario_analysis :
  analyze_rag_vs_context_dumping (fetch_performance_data scenario)
  = Ok {[ "rag_metrics" := VDict (dict_of_row scenario_rag);
          "context_dump_metrics" := VDict (dict_of_row scenario_context_dump);
          "performance_improvement_factor" := VDec (dec 50 (-1));
          "cost_reduction_factor" := VDec (dec 80 (-1));
          "quality_improvement_percent" := VDec (dec 1562 (-2)) ]}.
Proof. vm_compute. reflexivity. Qed.

Example scenario_key_achievements now str_of_container :
  (s ← generate_executive_summary now str_of_container (fetch_performance_data scenario);
   mret (s !! "key_achievements"))
  = Ok (Some (VDict
      {[ "performance_improvement" := VStr "5.0x faster than context dumping";
         "cost_reduction" := VStr "8.0x cost reduction achieved";
         "quality_improvement" := VStr "15.62% quality increase";
         "roi_delivered" := VStr "800.00% return on investment" ]})).
Proof. vm_compute. reflexivity. Qed.

Example rag_slower_analysis :
  analyze_rag_vs_context_dumping rag_slower
  = Ok {[ "rag_metrics" := VDict (dict_of_row slow_rag);
          "context_dump_metrics" := VDict (dict_of_row fast_context_dump);
          "performance_improvement_factor" := VDec (dec 2 (-1));
          "cost_reduction_factor" := VDec (dec 1 (-1));
          "quality_improvement_percent" := VDec (dec 1250 (-2)) ]}.
Proof. vm_compute. reflexivity. Qed.

(** The mean of 0.0000004999999999999999999999, 0.0000005 and 0.0000005 is
    below 0.0000005; AVG rounds it to 0.0000005 at its own scale, and ROUND
    then gives 0.000001. *)
Example rounded_twice :
  sql_round_avg 6 [ Some (dec 4999999999999999999999 (-28)); Some (dec 5 (-7));
                    Some (dec 5 (-7)) ]
  = Some (dec 1 (-6)).
Proof. vm_compute. reflexivity. Qed.

Example rag_zero_time_analysis :
  analyze_rag_vs_context_dumping rag_zero_time = Raise DivisionByZero.
Proof. vm_compute. reflexivity. Qed.

(** ** Powers of ten and digit counts *)

Lemma pow10_pos (k : Z) : 0 ≤ k → 0 < 10 ^ k.
Proof. intros. apply Z.pow_pos_nonneg; lia. Qed.

Lemma pow10_succ (k : Z) : 0 ≤ k → 10 ^ (k + 1) = 10 * 10 ^ k.
Proof. intros. rewrite Z.pow_add_r by lia. lia. Qed.

Lemma pow10_add (j k : Z) : 0 ≤ j → 0 ≤ k → 10 ^ (j + k) = 10 ^ j * 10 ^ k.
Proof. intros. by apply Z.pow_add_r. Qed.

Lemma pow10_le (j k : Z) : 0 ≤ j ≤ k → 10 ^ j ≤ 10 ^ k.
Proof. intros. apply Z.pow_le_mono_r; lia. Qed.

Lemma pow10_lt (j k : Z) : 0 ≤ j < k → 10 ^ j < 10 ^ k.
Proof. intros. apply Z.pow_lt_mono_r; lia. Qed.

Lemma pow10_lt_inv (j k : Z) : 0 ≤ j → 0 ≤ k → 10 ^ j < 10 ^ k → j < k.
Proof. intros Hj Hk H. apply (Z.pow_lt_mono_r_iff 10); lia. Qed.

Lemma ndigits_aux_spec (fuel : nat) (n : Z) :
  0 < n → Z.log2 n ≤ Z.of_nat fuel →
  1 ≤ Decimal.ndigits_aux fuel n
  ∧ 10 ^ (Decimal.ndigits_aux fuel n - 1) ≤ n < 10 ^ Decimal.ndigits_aux fuel n.
Proof.
  revert n. induction fuel as [|fuel IH]; intros n Hn Hlog.
  - assert (Z.log2 n = 0) as H0 by (pose proof (Z.log2_nonneg n); lia).
    apply Z.log2_null in H0. assert (n = 1) as -> by lia. simpl. lia.
  - cbn [Decimal.ndigits_aux]. destruct (Z.ltb_spec n 10) as [H10|H10].
    + simpl. lia.
    + assert (Hq : 0 < n / 10) by (apply Z.div_str_pos; lia).
      assert (Hl : Z.log2 (n / 10) ≤ Z.of_nat fuel).
      { assert (n / 10 ≤ n / 2) by (apply Z.div_le_compat_l; lia).
        assert (Z.log2 (n / 10) ≤ Z.log2 (n / 2)) by (by apply Z.log2_le_mono).
        rewrite <- Z.div2_div, Z.div2_spec, Z.log2_shiftr in H0 by lia.
        lia. }
      destruct (IH (n / 10) Hq Hl) as (H1 & Hlo & Hhi).
      set (k := Decimal.ndigits_aux fuel (n / 10)) in *.
      replace (1 + k - 1) with ((k - 1) + 1) by lia.
      rewrite (Z.add_comm 1 k), !pow10_succ by lia.
      pose proof (Z.div_mod n 10 ltac:(lia)). pose proof (Z.mod_pos_bound n 10 ltac:(lia)).
      lia.
Qed.

Lemma ndigits_spec (n : Z) :
  0 < n → 1 ≤ Decimal.ndigits n ∧ 10 ^ (Decimal.ndigits n - 1) ≤ n < 10 ^ Decimal.ndigits n.
Proof.
  intros Hn. apply ndigits_aux_spec; [done|].
  pose proof (Z.log2_nonneg n). lia.
Qed.

Lemma ndigits_unique (n k : Z) :
  10 ^ (k - 1) ≤ n < 10 ^ k → 1 ≤ k → Decimal.ndigits n = k.
Proof.
  intros [Hlo Hhi] Hk.
  assert (Hn : 0 < n) by (pose proof (pow10_pos (k - 1)); lia).
  destruct (ndigits_spec n Hn) as (H1 & Hlo' & Hhi').
  set (d := Decimal.ndigits n) in *.
  destruct (Z.lt_trichotomy d k) as [H|[H|H]]; [|done|].
  - assert (10 ^ d ≤ 10 ^ (k - 1)) by (apply pow10_le; lia). lia.
  - assert (10 ^ k ≤ 10 ^ (d - 1)) by (apply pow10_le; lia). lia.
Qed.

Lemma ndigits_le (n k : Z) : 0 < n < 10 ^ k → Decimal.ndigits n ≤ k.
Proof.
  intros [Hn Hk].
  destruct (ndigits_spec n Hn) as (H1 & Hlo & _).
  destruct (Z.le_gt_cases (Decimal.ndigits n) k) as [|H]; [done|].
  destruct (Z.le_gt_cases 0 k) as [Hk0|Hk0].
  - assert (10 ^ k ≤ 10 ^ (Decimal.ndigits n - 1)) by (apply pow10_le; lia). lia.
  - rewrite Z.pow_neg_r in Hk by lia. lia.
Qed.

Lemma ndigits_ge (n k : Z) : 10 ^ (k - 1) ≤ n → 0 < n → k ≤ Decimal.ndigits n.
Proof.
  intros Hk Hn.
  destruct (ndigits_spec n Hn) as (H1 & _ & Hhi).
  destruct (Z.le_gt_cases k (Decimal.ndigits n)) as [|H]; [done|].
  assert (10 ^ Decimal.ndigits n ≤ 10 ^ (k - 1)) by (apply pow10_le; lia). lia.
Qed.

(** ** Rounding half to even *)

Lemma round_half_even_nearest (c d : Z) :
  0 < d → nearest_even c d (Decimal.round_half_even c d).
Proof.
  intros Hd. unfold nearest_even, Decimal.round_half_even.
  pose proof (Z.div_mod c d ltac:(lia)) as Hdm.
  pose proof (Z.mod_pos_bound c d Hd) as Hr.
  set (q := c / d) in *. set (r := c mod d) in *.
  destruct (Z.ltb_spec (2 * r) d) as [H1|H1].
  - left. replace (c - q * d) with r by lia. lia.
  - destruct (Z.ltb_spec d (2 * r)) as [H2|H2].
    + left. replace (c - (q + 1) * d) with (r - d) by lia. lia.
    + destruct (Z.even q) eqn:He.
      * right. split; [|done]. replace (c - q * d) with r by lia. lia.
      * right. split.
        -- replace (c - (q + 1) * d) with (r - d) by lia. lia.
        -- rewrite Z.even_add, He. reflexivity.
Qed.

Lemma nearest_even_unique (c d k k' : Z) :
  0 < d → nearest_even c d k → nearest_even c d k' → k = k'.
Proof.
  intros Hd Hk Hk'.
  assert (Hclose : Z.abs (k - k') * d ≤ Z.abs (c - k * d) + Z.abs (c - k' * d)) by nia.
  destruct Hk as [Hk|[Hk He]], Hk' as [Hk'|[Hk' He']]; try nia.
  destruct (Z.eq_dec k k') as [|Hne]; [done|exfalso].
  assert (Hone : Z.abs (k - k') = 1) by nia.
  apply Z.even_spec in He as [j ->]. apply Z.even_spec in He' as [j' ->]. lia.
Qed.

Lemma round_half_even_unique (c d k : Z) :
  0 < d → nearest_even c d k → Decimal.round_half_even c d = k.
Proof.
  intros Hd Hk. eapply nearest_even_unique; eauto using round_half_even_nearest.
Qed.

Lemma round_half_even_scale (c d m : Z) :
  0 < d → 0 < m →
  Decimal.round_half_even (c * m) (d * m) = Decimal.round_half_even c d.
Proof.
  intros Hd Hm. apply round_half_even_unique; [nia|].
  pose proof (round_half_even_nearest c d Hd) as Hk.
  set (k := Decimal.round_half_even c d) in *. unfold nearest_even in *.
  replace (c * m - k * (d * m)) with ((c - k * d) * m) by ring.
  rewrite Z.abs_mul, (Z.abs_eq m) by lia.
  destruct Hk as [Hk|[Hk He]]; [left|right; split; [|done]]; nia.
Qed.

Lemma round_half_even_exact (k d : Z) :
  0 < d → Decimal.round_half_even (k * d) d = k.
Proof.
  intros Hd. apply round_half_even_unique; [done|]. left.
  replace (k * d - k * d) with 0 by ring. simpl. lia.
Qed.

Lemma round_half_even_same_fraction (c d c' d' : Z) :
  0 < d → 0 < d' → c * d' = c' * d →
  Decimal.round_half_even c d = Decimal.round_half_even c' d'.
Proof.
  intros Hd Hd' Heq.
  rewrite <- (round_half_even_scale c d d'), <- (round_half_even_scale c' d' d) by done.
  rewrite Heq. f_equal. ring.
Qed.

Lemma round_half_even_ge (c d k : Z) :
  0 < d → k * d ≤ c → k ≤ Decimal.round_half_even c d.
Proof.
  intros Hd Hk. pose proof (round_half_even_nearest c d Hd) as Hn.
  set (r := Decimal.round_half_even c d) in *. unfold nearest_even in Hn.
  destruct (Z.le_gt_cases k r) as [|Hlt]; [done|exfalso].
  assert (r + 1 ≤ k) by lia. assert ((r + 1) * d ≤ c) by nia.
  destruct Hn as [Hn|[Hn _]]; lia.
Qed.

Lemma round_half_even_le (c d k : Z) :
  0 < d → c ≤ k * d → Decimal.round_half_even c d ≤ k.
Proof.
  intros Hd Hk. pose proof (round_half_even_nearest c d Hd) as Hn.
  set (r := Decimal.round_half_even c d) in *. unfold nearest_even in Hn.
  destruct (Z.le_gt_cases r k) as [|Hlt]; [done|exfalso].
  assert (k + 1 ≤ r) by lia. assert (c ≤ (r - 1) * d) by nia.
  destruct Hn as [Hn|[Hn _]]; lia.
Qed.

Lemma round_half_even_nonneg (c d : Z) :
  0 < d → 0 ≤ c → 0 ≤ Decimal.round_half_even c d.
Proof. intros. apply round_half_even_ge; lia. Qed.

Lemma round_half_even_le_self (c d : Z) :
  0 < d → 0 ≤ c → Decimal.round_half_even c d ≤ c.
Proof. intros. apply round_half_even_le; nia. Qed.

Lemma round_half_even_opp (c d : Z) :
  0 < d → Decimal.round_half_even (- c) d = - Decimal.round_half_even c d.
Proof.
  intros Hd. apply round_half_even_unique; [done|].
  pose proof (round_half_even_nearest c d Hd) as Hn.
  set (r := Decimal.round_half_even c d) in *. unfold nearest_even in *.
  replace (- c - - r * d) with (- (c - r * d)) by ring. rewrite Z.abs_opp.
  destruct Hn as [Hn|[Hn He]]; [by left|right]. split; [done|].
  by rewrite Z.even_opp.
Qed.

(** Rounding a fraction in two steps, first at a fine grain and then at a
    coarse one, is rounding it once when the denominator is below the ratio
    of the two grains. *)
Lemma round_half_even_twice (N D P m : Z) :
  0 < D → D < P → Z.even P = true →
  m = Decimal.round_half_even (N * P) D →
  Decimal.round_half_even m P = Decimal.round_half_even N D.
Proof.
  intros HD HP Hev ->.
  pose proof (round_half_even_nearest (N * P) D HD) as Hm.
  set (m := Decimal.round_half_even (N * P) D) in *.
  assert (HP0 : 0 < P) by lia.
  pose proof (round_half_even_nearest m P HP0) as Hk.
  set (k := Decimal.round_half_even m P) in *.
  symmetry. apply round_half_even_unique; [done|].
  apply Z.even_spec in Hev as [h Hh].
  unfold nearest_even in *.
  assert (Hm' : 2 * Z.abs (N * P - m * D) ≤ D) by (destruct Hm as [?|[? _]]; lia).
  destruct Hk as [Hk|[Hk Hek]].
  - left.
    assert (2 * Z.abs (m - k * P) ≤ P - 2) by lia.
    assert (2 * Z.abs (N * P - k * P * D) ≤ D + D * (P - 2)).
    { replace (N * P - k * P * D) with ((N * P - m * D) + (m - k * P) * D) by ring.
      nia. }
    assert (2 * Z.abs (N - k * D) * P < D * P).
    { replace (2 * Z.abs (N - k * D) * P) with (2 * Z.abs (N * P - k * P * D)).
      - nia.
      - replace (N * P - k * P * D) with ((N - k * D) * P) by ring.
        rewrite Z.abs_mul, (Z.abs_eq P) by lia. ring. }
    nia.
  - assert (Hmid : N * P = m * D).
    { destruct (Z.eq_dec (N * P) (m * D)) as [|Hne]; [done|exfalso].
      (* 2 (m - k P) = ± P, so 2 m D = (2 k ± 1) P D and P divides 2 (N P - m D) *)
      assert (Hcase : 2 * (m - k * P) = P ∨ 2 * (m - k * P) = - P) by lia.
      assert (∃ z, 2 * (N * P - m * D) = z * P) as [z Hz].
      { destruct Hcase as [Hc|Hc].
        - exists (2 * N - (2 * k + 1) * D). nia.
        - exists (2 * N - (2 * k - 1) * D). nia. }
      assert (z ≠ 0) by nia.
      assert (P ≤ Z.abs (z * P)) by nia.
      lia. }
    right. split; [|done].
    assert (2 * Z.abs (N - k * D) * P = D * P); [|nia].
    replace (2 * Z.abs (N - k * D) * P) with (2 * Z.abs ((N - k * D) * P))
      by (rewrite Z.abs_mul, (Z.abs_eq P) by lia; ring).
    replace ((N - k * D) * P) with ((m - k * P) * D) by nia.
    rewrite Z.abs_mul, (Z.abs_eq D) by lia. nia.
Qed.

(** ** The context precision: [_fix] and division *)

Lemma rounds_carry (N D : Z) :
  0 < D → Decimal.round_half_even (N * 10) D = 10 ^ 28 →
  Decimal.round_half_even N D = 10 ^ 27.
Proof.
  intros HD H. apply round_half_even_unique; [done|].
  pose proof (round_half_even_nearest (N * 10) D HD) as Hn. rewrite H in Hn.
  unfold nearest_even in *. left.
  assert (2 * Z.abs (N * 10 - 10 ^ 28 * D) ≤ D) by (destruct Hn as [?|[? _]]; lia).
  replace (N * 10 - 10 ^ 28 * D) with ((N - 10 ^ 27 * D) * 10) in H0 by lia.
  rewrite Z.abs_mul in H0. simpl (Z.abs 10) in H0. lia.
Qed.

(** [_fix] on a positive coefficient that is the fraction [N / D] exactly,
    or whose rounding to 28 digits is the rounding of [N / D]. *)
Lemma fix_rounds (sg : bool) (c e N D : Z) :
  0 < D → 0 < c → e ≤ 0 →
  (Decimal.ndigits c ≤ 28 ∧ c * D = N * 10 ^ (- e))
  ∨ (28 < Decimal.ndigits c ∧ Decimal.ndigits c - 28 < - e
     ∧ Decimal.round_half_even c (10 ^ (Decimal.ndigits c - 28))
       = Decimal.round_half_even (N * 10 ^ (- e)) (D * 10 ^ (Decimal.ndigits c - 28))) →
  ∃ c' e', Decimal.fix_ (Decimal.Dec sg c e) = Decimal.Dec sg c' e' ∧ rounds N D c' e'.
Proof.
  intros HD Hc He H. unfold Decimal.fix_. cbn [Decimal.coef Decimal.expo Decimal.sign].
  destruct (Z.eqb_spec c 0) as [|_]; [lia|].
  unfold Decimal.prec.
  destruct (ndigits_spec c Hc) as (Hl1 & Hlo & Hhi).
  set (l := Decimal.ndigits c) in *.
  destruct H as [[Hl Hex]|(Hl & Hs & Hr)].
  - destruct (Z.ltb_spec e (l + e - 28)) as [|_]; [lia|].
    exists c, e. split; [done|]. unfold rounds; split_and!; [done| |by left|].
    + rewrite <- Hex. by rewrite round_half_even_exact.
    + assert (10 ^ l ≤ 10 ^ 28) by (apply pow10_le; lia). lia.
  - destruct (Z.ltb_spec e (l + e - 28)) as [_|]; [|lia].
    replace (l + e - 28 - e) with (l - 28) by lia.
    set (j := l - 28) in *.
    assert (Hj : 0 < 10 ^ j) by (apply pow10_pos; lia).
    set (c1 := Decimal.round_half_even c (10 ^ j)) in *.
    assert (Hsplit : 10 ^ (- e) = 10 ^ (- e - j) * 10 ^ j).
    { rewrite <- pow10_add by lia. f_equal. lia. }
    assert (Hc1 : c1 = Decimal.round_half_even (N * 10 ^ (- e - j)) D).
    { rewrite Hr, Hsplit, Z.mul_assoc. by apply round_half_even_scale. }
    assert (Hlow : 10 ^ 27 ≤ c1).
    { apply round_half_even_ge; [done|].
      replace (l - 1) with (27 + j) in Hlo by lia.
      rewrite pow10_add in Hlo by lia. lia. }
    assert (Hup : c1 ≤ 10 ^ 28).
    { apply round_half_even_le; [done|].
      replace l with (28 + j) in Hhi by lia.
      rewrite pow10_add in Hhi by lia. lia. }
    destruct (Z.ltb_spec 28 (Decimal.ndigits c1)) as [Hd|Hd].
    + assert (c1 = 10 ^ 28) as Hc28.
      { destruct (Z.eq_dec c1 (10 ^ 28)) as [|Hne]; [done|exfalso].
        assert (Decimal.ndigits c1 ≤ 28) by (apply ndigits_le; lia). lia. }
      exists (c1 / 10), (l + e - 28 + 1). split; [done|].
      rewrite Hc28. change (10 ^ 28 / 10) with (10 ^ 27).
      unfold rounds.
      replace (- (l + e - 28 + 1)) with (- e - j - 1) by lia.
      split_and!; [lia| |by right|lia].
      symmetry. apply rounds_carry; [done|].
      rewrite <- Hc28, Hc1.
      assert (10 ^ (- e - j) = 10 * 10 ^ (- e - j - 1)) as ->.
      { rewrite <- pow10_succ by lia. f_equal. lia. }
      by replace (N * 10 ^ (- e - j - 1) * 10) with (N * (10 * 10 ^ (- e - j - 1))) by ring.
    + exists c1, (l + e - 28). split; [done|].
      unfold rounds.
      replace (- (l + e - 28)) with (- e - j) by lia.
      split_and!; [lia|done|by right|].
      destruct (Z.eq_dec c1 (10 ^ 28)) as [Heq|Hne]; [|lia].
      rewrite Heq in Hd. vm_compute in Hd. by destruct Hd.
Qed.

(** The sticky digit of [__truediv__]: a truncated quotient, moved off the
    multiples of five when the division is inexact, rounds as the exact
    quotient does. *)
Lemma sticky_rounds (X b c r j : Z) :
  0 < b → X = b * c + r → 0 < r < b → 1 ≤ j →
  Decimal.round_half_even (if c mod 5 =? 0 then c + 1 else c) (10 ^ j)
  = Decimal.round_half_even X (b * 10 ^ j).
Proof.
  intros Hb HX Hr Hj.
  set (c0 := if c mod 5 =? 0 then c + 1 else c).
  assert (Hc0 : c0 mod 5 ≠ 0 ∧ c ≤ c0 ≤ c + 1 ∧ (c0 = c + 1 → c mod 5 = 0)).
  { subst c0. destruct (Z.eqb_spec (c mod 5) 0) as [H5|H5].
    - split; [|lia]. intros H. pose proof (Z.div_mod c 5 ltac:(lia)).
      pose proof (Z.div_mod (c + 1) 5 ltac:(lia)). lia.
    - split; [done|lia]. }
  destruct Hc0 as (H5 & Hrange & Hup).
  assert (Hw : 0 < 10 ^ (j - 1)) by (apply pow10_pos; lia).
  assert (HP : 10 ^ j = 10 * 10 ^ (j - 1)).
  { replace j with ((j - 1) + 1) at 1 by lia. by rewrite pow10_succ by lia. }
  set (W := 10 ^ (j - 1)) in *.
  assert (HPpos : 0 < 10 ^ j) by lia.
  pose proof (round_half_even_nearest c0 (10 ^ j) HPpos) as Hk.
  set (k := Decimal.round_half_even c0 (10 ^ j)) in *.
  symmetry. apply round_half_even_unique; [nia|]. left.
  unfold nearest_even in Hk. rewrite HP in Hk |- *.
  assert (Habs : Z.abs (c0 - k * (10 * W)) ≤ 5 * W) by (destruct Hk as [?|[? _]]; lia).
  assert (Hne : Z.abs (c0 - k * (10 * W)) ≠ 5 * W).
  { intros Heq. apply H5.
    assert (∃ z, c0 = z * 5) as [z Hz].
    { assert (c0 = (2 * k * W + W) * 5 ∨ c0 = (2 * k * W - W) * 5) as [?|?] by lia; eauto. }
    rewrite Hz. apply Z.mod_mul. lia. }
  assert (HL : 10 * k * W - 5 * W < c0 < 10 * k * W + 5 * W) by lia.
  assert (Hlow : (10 * k * W - 5 * W) * b < X).
  { destruct (Z.eq_dec c0 c) as [Heq|Hneq]; [nia|].
    assert (c0 = c + 1) as Hc1 by lia. specialize (Hup Hc1).
    destruct (Z.eq_dec c (10 * k * W - 5 * W)) as [Hcl|Hcl]; [rewrite HX, Hcl; lia|].
    assert (10 * k * W - 5 * W + 1 ≤ c) by lia. nia. }
  assert (Hhigh : X < (10 * k * W + 5 * W) * b).
  { destruct (Z.eq_dec c0 c) as [Heq|Hneq]; [nia|]. nia. }
  replace (X - k * (b * (10 * W))) with (X - 10 * k * W * b) by ring.
  nia.
Qed.

Lemma strip_zeros_spec (fuel : nat) (c e ideal : Z) :
  ∃ k, 0 ≤ k
       ∧ c = fst (Decimal.strip_zeros fuel c e ideal) * 10 ^ k
       ∧ snd (Decimal.strip_zeros fuel c e ideal) = e + k
       ∧ (k = 0 ∨ e + k ≤ ideal).
Proof.
  revert c e. induction fuel as [|fuel IH]; intros c e.
  - exists 0. simpl. split_and!; [lia|lia|lia|by left].
  - cbn [Decimal.strip_zeros].
    destruct (Z.ltb_spec e ideal) as [He|He]; cbn [andb];
      [destruct (Z.eqb_spec (c mod 10) 0) as [Hm|Hm]|].
    + destruct (IH (c / 10) (e + 1)) as (k & Hk & Hc & He' & Hle).
      exists (k + 1). split_and!; [lia| |lia|right; lia].
      rewrite pow10_succ by lia.
      pose proof (Z.div_mod c 10 ltac:(lia)). nia.
    + exists 0. simpl. split_and!; [lia|lia|lia|by left].
    + exists 0. simpl. split_and!; [lia|lia|lia|by left].
Qed.

(** [__truediv__] on positive coefficients at a common exponent returns the
    quotient of the coefficients as the context keeps it. *)
Lemma div_rounds (x y : Decimal.t) :
  0 < Decimal.coef x → 0 < Decimal.coef y →
  Decimal.expo x = Decimal.expo y →
  Decimal.ndigits (Decimal.coef x) ≤ Decimal.ndigits (Decimal.coef y) + 26 →
  ∃ c e, Decimal.div x y = Ok (Decimal.Dec (xorb (Decimal.sign x) (Decimal.sign y)) c e)
         ∧ rounds (Decimal.coef x) (Decimal.coef y) c e.
Proof.
  destruct x as [sx a ex], y as [sy b ey]. cbn [Decimal.coef Decimal.expo Decimal.sign].
  intros Ha Hb <- Hlen. unfold Decimal.div. cbn [Decimal.coef Decimal.expo Decimal.sign].
  destruct (Z.eqb_spec b 0) as [|_]; [lia|].
  destruct (Z.eqb_spec a 0) as [|_]; [lia|].
  unfold Decimal.prec. rewrite Z.sub_diag.
  destruct (ndigits_spec a Ha) as (Hla & Halo & Hahi).
  destruct (ndigits_spec b Hb) as (Hlb & Hblo & Hbhi).
  set (la := Decimal.ndigits a) in *. set (lb := Decimal.ndigits b) in *.
  set (shift := lb - la + 28 + 1).
  assert (Hshift : 3 ≤ shift) by (subst shift; lia).
  destruct (Z.leb_spec 0 shift) as [_|]; [|lia].
  set (X := a * 10 ^ shift).
  pose proof (Z_div_mod X b ltac:(lia)) as Hdm.
  destruct (Z.div_eucl X b) as [c r]. destruct Hdm as [HX Hr].
  assert (Hsh : 0 < 10 ^ shift) by (apply pow10_pos; lia).
  assert (HXlo : 10 ^ 28 * 10 ^ lb ≤ X).
  { rewrite <- pow10_add by lia. subst X.
    replace (28 + lb) with ((la - 1) + shift) by (subst shift; lia).
    rewrite pow10_add by lia. nia. }
  assert (HXhi : X < 10 ^ 30 * 10 ^ (lb - 1)).
  { rewrite <- pow10_add by lia. subst X.
    replace (30 + (lb - 1)) with (la + shift) by (subst shift; lia).
    rewrite pow10_add by lia. nia. }
  assert (Hclo : 10 ^ 28 ≤ c) by nia.
  assert (Hchi : c < 10 ^ 30) by nia.
  replace (0 - (0 - shift)) with shift by lia.
  destruct (Z.eqb_spec r 0) as [Hr0|Hr0].
  - destruct (strip_zeros_spec (Z.to_nat shift) c (0 - shift) 0) as (k & Hk & Hck & Hek & Hle).
    destruct (Decimal.strip_zeros (Z.to_nat shift) c (0 - shift) 0) as [c' e'].
    cbn [fst snd] in *.
    assert (Hpk : 0 < 10 ^ k) by (apply pow10_pos; lia).
    assert (Hc' : 0 < c') by nia.
    assert (He' : e' ≤ 0) by lia.
    assert (Hsplit : 10 ^ shift = 10 ^ (- e') * 10 ^ k).
    { rewrite <- pow10_add by lia. f_equal. lia. }
    assert (Hex : c' * b = a * 10 ^ (- e')).
    { assert (HX' : X = a * 10 ^ (- e') * 10 ^ k) by (subst X; rewrite Hsplit; ring).
      assert (c' * b * 10 ^ k = a * 10 ^ (- e') * 10 ^ k); [|nia].
      rewrite <- HX', HX, Hck, Hr0. ring. }
    destruct (fix_rounds (xorb sx sy) c' e' a b Hb Hc' He') as (c1 & e1 & Hfix & Hrounds).
    + destruct (Z.le_gt_cases (Decimal.ndigits c') 28) as [Hd|Hd]; [by left|right].
      destruct (ndigits_spec c' Hc') as (_ & Hc'lo & _).
      set (l := Decimal.ndigits c') in *.
      split_and!; [lia| |].
      * (* 10^(l-1) * 10^(lb-1) ≤ c' * b = a * 10^(-e') < 10^la * 10^(-e') *)
        assert (10 ^ (l - 1) * 10 ^ (lb - 1) < 10 ^ la * 10 ^ (- e')) as Hlt by nia.
        rewrite <- !pow10_add in Hlt by lia.
        apply pow10_lt_inv in Hlt; lia.
      * apply round_half_even_same_fraction; [apply pow10_pos; lia| |].
        -- assert (0 < 10 ^ (l - 28)) by (apply pow10_pos; lia). nia.
        -- nia.
    + exists c1, e1. by rewrite Hfix.
  - set (c0 := if c mod 5 =? 0 then c + 1 else c).
    assert (Hc0 : c ≤ c0 ≤ c + 1 ∧ c0 < 10 ^ 30).
    { subst c0. destruct (Z.eqb_spec (c mod 5) 0) as [H5|H5]; [|lia].
      split; [lia|]. destruct (Z.eq_dec (c + 1) (10 ^ 30)) as [Heq|]; [|lia].
      assert (c = 10 ^ 30 - 1) as Hc by lia. rewrite Hc in H5. vm_compute in H5. lia. }
    assert (Hc0pos : 0 < c0) by lia.
    assert (Hl0 : 29 ≤ Decimal.ndigits c0 ≤ 30).
    { split; [apply ndigits_ge; [change (29 - 1) with 28|]; lia|apply ndigits_le; lia]. }
    destruct (fix_rounds (xorb sx sy) c0 (0 - shift) a b Hb Hc0pos ltac:(lia))
      as (c1 & e1 & Hfix & Hrounds).
    + right. split_and!; [lia|lia|].
      replace (- (0 - shift)) with shift by lia. fold X.
      apply (sticky_rounds X b c r); lia.
    + exists c1, e1. by rewrite Hfix.
Qed.

(** ** Rounding a quotient to a number of places *)

Lemma pow10_even (t : Z) : 1 ≤ t → Z.even (10 ^ t) = true.
Proof.
  intros Ht. replace t with ((t - 1) + 1) by lia.
  rewrite pow10_succ by lia. by rewrite Z.even_mul.
Qed.

Lemma rounds_pos (N D c e : Z) : 0 < N → 0 < D → rounds N D c e → 0 < c.
Proof.
  intros HN HD (He & _ & [Hex|Hhi] & _); [|lia].
  assert (0 < 10 ^ (- e)) by (apply pow10_pos; lia). nia.
Qed.

Lemma rounds_le (N D c e : Z) :
  0 < N → 0 < D → rounds N D c e → c ≤ N * 10 ^ (- e).
Proof.
  intros HN HD (He & -> & _ & _).
  assert (0 < 10 ^ (- e)) by (apply pow10_pos; lia).
  apply round_half_even_le_self; [done|nia].
Qed.

Lemma ndigits_0 : Decimal.ndigits 0 = 1.
Proof. reflexivity. Qed.

Lemma ndigits_small (k : Z) : 0 ≤ k < 10 ^ 26 → Decimal.ndigits k ≤ 28.
Proof.
  intros [H0 Hk]. destruct (Z.eq_dec k 0) as [->|]; [rewrite ndigits_0; lia|].
  assert (Decimal.ndigits k ≤ 26) by (apply ndigits_le; lia). lia.
Qed.

(** [quantize] of a quotient kept by the context gives the quotient rounded
    once, half to even, at the requested exponent: the precision of the
    context is fine enough for the intermediate rounding not to show. *)
Lemma quantize_rounds (sg : bool) (N D c e n : Z) :
  0 < N → 0 < D → 0 ≤ n → N * 10 ^ n < 10 ^ 26 → rounds N D c e →
  Decimal.quantize (Decimal.Dec sg c e) (- n)
  = Ok (Decimal.Dec sg (Decimal.round_half_even (N * 10 ^ n) D) (- n)).
Proof.
  intros HN HD Hn Hbound Hr.
  pose proof (rounds_pos _ _ _ _ HN HD Hr) as Hc.
  pose proof (rounds_le _ _ _ _ HN HD Hr) as Hle.
  destruct Hr as (He & Hround & Hcase & Hc28).
  set (s := - e) in *.
  assert (Hps : 0 < 10 ^ s) by (apply pow10_pos; lia).
  assert (Hpn : 0 < 10 ^ n) by (apply pow10_pos; lia).
  set (K := Decimal.round_half_even (N * 10 ^ n) D).
  assert (HK : 0 ≤ K < 10 ^ 26).
  { split; [apply round_half_even_nonneg; nia|].
    assert (K ≤ N * 10 ^ n) by (apply round_half_even_le_self; nia). lia. }
  assert (Hexact : c * D = N * 10 ^ s ∨ (10 ^ 27 ≤ c ∧ n < s ∧ D < 10 ^ (s - n))).
  { destruct Hcase as [?|Hhi]; [by left|right].
    destruct (Z.le_gt_cases s n) as [Hsn|Hsn].
    - assert (10 ^ s ≤ 10 ^ n) by (apply pow10_le; lia). nia.
    - split_and!; [done|lia|].
      assert (Hsplit : 10 ^ s = 10 ^ n * 10 ^ (s - n)).
      { rewrite <- pow10_add by lia. f_equal. lia. }
      pose proof (round_half_even_nearest (N * 10 ^ s) D HD) as Hne.
      rewrite <- Hround in Hne. unfold nearest_even in Hne.
      assert (0 < 10 ^ (s - n)) by (apply pow10_pos; lia).
      assert ((c - 1) * D < N * 10 ^ s) by (destruct Hne as [?|[? _]]; lia).
      assert ((10 ^ 27 - 1) * D ≤ (c - 1) * D) by nia.
      assert (N * 10 ^ s ≤ (10 ^ 26 - 1) * 10 ^ (s - n)) by (rewrite Hsplit; nia).
      nia. }
  assert (Hresc : Decimal.rescale (Decimal.Dec sg c e) (- n) = Decimal.Dec sg K (- n)).
  { unfold Decimal.rescale. cbn [Decimal.coef Decimal.expo Decimal.sign].
    destruct (Z.eqb_spec c 0) as [|_]; [lia|].
    destruct (Z.leb_spec (- n) e) as [Hne|Hne]; f_equal.
    - destruct Hexact as [Hex|?]; [|lia].
      assert (Hsplit : 10 ^ n = 10 ^ s * 10 ^ (e - - n)).
      { rewrite <- pow10_add by lia. f_equal. lia. }
      subst K. rewrite Hsplit.
      replace (N * (10 ^ s * 10 ^ (e - - n))) with (c * 10 ^ (e - - n) * D) by nia.
      by rewrite round_half_even_exact.
    - replace (- n - e) with (s - n) by lia.
      assert (Hsplit : 10 ^ s = 10 ^ n * 10 ^ (s - n)).
      { rewrite <- pow10_add by lia. f_equal. lia. }
      assert (0 < 10 ^ (s - n)) by (apply pow10_pos; lia).
      destruct Hexact as [Hex|(_ & _ & HDP)].
      + apply round_half_even_same_fraction; [done|done|]. rewrite Hex, Hsplit. ring.
      + apply (round_half_even_twice (N * 10 ^ n) D (10 ^ (s - n)) c); [done|done| |].
        * apply pow10_even. lia.
        * rewrite Hround, Hsplit. f_equal. ring. }
  unfold Decimal.quantize, Decimal.adjusted, Decimal.prec.
  cbn [Decimal.coef Decimal.expo Decimal.sign]. rewrite Hresc.
  cbn [Decimal.coef Decimal.expo Decimal.sign].
  destruct (Z.eqb_spec c 0) as [|_]; [lia|].
  assert (Hnd : Decimal.ndigits c ≤ 26 + s - n).
  { apply ndigits_le. split; [done|].
    assert (c * 10 ^ n < 10 ^ 26 * 10 ^ s) by nia.
    assert (n < 26 + s).
    { apply pow10_lt_inv; [lia|lia|]. rewrite pow10_add by lia. nia. }
    assert (10 ^ 26 * 10 ^ s = 10 ^ (26 + s - n) * 10 ^ n).
    { rewrite <- !pow10_add by lia. f_equal. lia. }
    nia. }
  destruct (Z.ltb_spec 28 (e + Decimal.ndigits c - 1 - - n + 1)) as [|_]; [lia|].
  pose proof (ndigits_small K HK).
  destruct (Z.ltb_spec 28 (Decimal.ndigits K)) as [|_]; [lia|]. done.
Qed.

(** [round(x / y, n)] on coefficients at a common exponent: the quotient of
    the coefficients, rounded once. *)
Lemma round_div (x y : Decimal.t) (n : Z) :
  0 ≤ Decimal.coef x → 0 < Decimal.coef y →
  Decimal.expo x = Decimal.expo y →
  0 ≤ n → Decimal.coef x * 10 ^ n < 10 ^ 26 →
  (q ← Decimal.div x y; Decimal.round q n)
  = Ok (Decimal.Dec (xorb (Decimal.sign x) (Decimal.sign y))
          (Decimal.round_half_even (Decimal.coef x * 10 ^ n) (Decimal.coef y)) (- n)).
Proof.
  intros Ha Hb He Hn Hbound.
  assert (Hpn : 0 < 10 ^ n) by (apply pow10_pos; lia).
  destruct (Z.eq_dec (Decimal.coef x) 0) as [Ha0|Ha0].
  - unfold Decimal.div. rewrite Ha0.
    destruct (Z.eqb_spec (Decimal.coef y) 0) as [|_]; [lia|].
    cbn. change (0 * 10 ^ n) with (0 * Decimal.coef y).
    by rewrite round_half_even_exact.
  - assert (Hlen : Decimal.ndigits (Decimal.coef x) ≤ Decimal.ndigits (Decimal.coef y) + 26).
    { assert (Decimal.ndigits (Decimal.coef x) ≤ 26) by (apply ndigits_le; nia).
      destruct (ndigits_spec (Decimal.coef y) Hb) as (? & _). lia. }
    destruct (div_rounds x y ltac:(lia) Hb He Hlen) as (c & e & -> & Hr).
    cbn [mbind result_bind]. unfold Decimal.round.
    apply quantize_rounds; [lia|done|done|done|done].
Qed.

(** ** Decimals as rationals *)

Local Open Scope Q_scope.

Lemma Qround_half_even_Qmake (N : Z) (D : positive) :
  Qround_half_even (N # D) = Decimal.round_half_even N (Z.pos D).
Proof.
  unfold Qround_half_even, Decimal.round_half_even. cbn [Qfloor].
  pose proof (Z.div_mod N (Z.pos D) ltac:(lia)) as Hdm.
  pose proof (Z.mod_pos_bound N (Z.pos D) ltac:(lia)) as Hr.
  set (f := (N / Z.pos D)%Z) in *. set (r := (N mod Z.pos D)%Z) in *.
  assert (Hcmp : ((N # D) - inject_Z f ?= 1 # 2) = (2 * r ?= Z.pos D)%Z).
  { unfold Qcompare, Qminus, Qplus, Qopp, inject_Z. cbn [Qnum Qden].
    rewrite Pos.mul_1_r. f_equal; lia. }
  rewrite Hcmp.
  destruct (Z.compare_spec (2 * r) (Z.pos D)) as [Heq|Hlt|Hgt].
  - destruct (Z.ltb_spec (2 * r) (Z.pos D)); [lia|].
    destruct (Z.ltb_spec (Z.pos D) (2 * r)); [lia|]. done.
  - destruct (Z.ltb_spec (2 * r) (Z.pos D)); [done|lia].
  - destruct (Z.ltb_spec (2 * r) (Z.pos D)); [lia|].
    destruct (Z.ltb_spec (Z.pos D) (2 * r)); [done|lia].
Qed.

Lemma Qround_half_even_comp (q q' : Q) :
  q == q' → Qround_half_even q = Qround_half_even q'.
Proof.
  intros Hq. unfold Qround_half_even.
  assert (Hf : Qfloor q = Qfloor q') by (by rewrite Hq).
  rewrite Hf.
  assert (Hc : (q - inject_Z (Qfloor q') ?= 1 # 2) = (q' - inject_Z (Qfloor q') ?= 1 # 2))
    by (by rewrite Hq).
  by rewrite Hc.
Qed.

(** The rounding of a quotient of integers, for a positive denominator. *)
Lemma Qround_half_even_div (N D : Z) :
  (0 < D)%Z →
  Qround_half_even (inject_Z N / inject_Z D) = Decimal.round_half_even N D.
Proof.
  intros HD. destruct D as [|D|D]; try lia.
  rewrite <- Qround_half_even_Qmake. apply Qround_half_even_comp.
  symmetry. apply Qmake_Qdiv.
Qed.

Lemma pow10_Q_pos (e : Z) : 0 < inject_Z 10 ^ e.
Proof. by apply Qpower_0_lt. Qed.

Lemma pow10_Q_nonzero (e : Z) : ¬ inject_Z 10 ^ e == 0.
Proof.
  pose proof (pow10_Q_pos e) as H. intros Heq. rewrite Heq in H.
  by apply Qlt_irrefl in H.
Qed.

Lemma pow10_Q_inject (n : Z) : (0 ≤ n)%Z → inject_Z 10 ^ n == inject_Z (10 ^ n).
Proof. intros. symmetry. by apply Zpower_Qpower. Qed.

Lemma inject_Z_nonzero (z : Z) : z ≠ 0%Z → ¬ inject_Z z == 0.
Proof. intros Hz H. unfold Qeq in H. cbn in H. lia. Qed.

Local Close Scope Q_scope.

(** ** The value of a rounded quotient *)

Lemma sgn_xorb (s t : bool) : sgn (xorb s t) = sgn s * sgn t.
Proof. by destruct s, t. Qed.

Lemma sgn_sq (s : bool) : sgn s * sgn s = 1.
Proof. by destruct s. Qed.

Lemma round_half_even_sgn (s : bool) (c d : Z) :
  0 < d →
  Decimal.round_half_even (sgn s * c) d = sgn s * Decimal.round_half_even c d.
Proof.
  intros Hd. destruct s; cbn [sgn].
  - replace (-1 * c) with (- c) by lia. rewrite round_half_even_opp by done. lia.
  - by rewrite !Z.mul_1_l.
Qed.

Local Open Scope Q_scope.

Lemma to_Q_unfold (s : bool) (c e : Z) :
  to_Q (Decimal.Dec s c e) = inject_Z (sgn s * c) * inject_Z 10 ^ e.
Proof. reflexivity. Qed.

(** The quotient of two values at a common exponent, scaled by a power of
    ten, is a quotient of integers. *)
Lemma to_Q_quotient (x y : Decimal.t) (n : Z) :
  (0 < Decimal.coef y)%Z → Decimal.expo x = Decimal.expo y → (0 ≤ n)%Z →
  to_Q x / to_Q y * inject_Z 10 ^ n
  == inject_Z (sgn (xorb (Decimal.sign x) (Decimal.sign y)) * (Decimal.coef x * 10 ^ n))
     / inject_Z (Decimal.coef y).
Proof.
  destruct x as [sx a ex], y as [sy b ey]. cbn [Decimal.coef Decimal.expo Decimal.sign].
  intros Hb <- Hn. rewrite !to_Q_unfold, (pow10_Q_inject n Hn).
  pose proof (pow10_Q_nonzero ex) as He.
  assert (Hbq : ¬ inject_Z b == 0) by (apply inject_Z_nonzero; lia).
  assert (Hsy : ¬ inject_Z (sgn sy) == 0) by (apply inject_Z_nonzero; by destruct sy).
  assert (Hs : inject_Z (sgn sy) * inject_Z (sgn sy) == 1).
  { rewrite <- inject_Z_mult, sgn_sq. reflexivity. }
  destruct sx, sy; cbn [xorb sgn];
    rewrite ?Z.mul_1_l;
    replace (-1 * a)%Z with (- a)%Z by lia;
    replace (-1 * b)%Z with (- b)%Z by lia;
    replace (-1 * (a * 10 ^ n))%Z with (- (a * 10 ^ n))%Z by lia;
    rewrite ?inject_Z_opp, ?inject_Z_mult; field; by split_and!.
Qed.

(** The value of [Dec s (round_half_even (a * 10^n) b) (-n)], with [s] the
    sign of the quotient, is the quotient of the values rounded to [n]
    places. *)
Lemma to_Q_rounded_quotient (x y : Decimal.t) (n : Z) :
  (0 < Decimal.coef y)%Z → Decimal.expo x = Decimal.expo y → (0 ≤ n)%Z →
  to_Q (Decimal.Dec (xorb (Decimal.sign x) (Decimal.sign y))
          (Decimal.round_half_even (Decimal.coef x * 10 ^ n) (Decimal.coef y)) (- n))
  == round_places n (to_Q x / to_Q y).
Proof.
  intros Hb He Hn. unfold round_places.
  rewrite (Qround_half_even_comp _ _ (to_Q_quotient x y n Hb He Hn)).
  rewrite (Qround_half_even_div _ _ Hb), round_half_even_sgn by done.
  rewrite to_Q_unfold, Qpower_opp. reflexivity.
Qed.

Lemma to_Q_ge_1 (K : Z) : (10 ≤ K)%Z → 1 <= to_Q (Decimal.Dec false K (-1)).
Proof.
  intros HK. rewrite to_Q_unfold. cbn [sgn]. rewrite Z.mul_1_l.
  change (inject_Z 10 ^ (-1)) with (/ inject_Z 10).
  unfold Qle, Qmult, Qinv, inject_Z. cbn. lia.
Qed.

Local Close Scope Q_scope.

(** ** Shape of the analysis *)

Lemma bind_Ok {A B} (m : result A) (f : A → result B) (b : B) :
  m ≫= f = Ok b → ∃ a, m = Ok a ∧ f a = Ok b.
Proof. destruct m as [a|e]; simpl; [eauto | discriminate]. Qed.

(** What a successful call returns: the empty dict when a group is missing,
    the five entries otherwise. *)
Lemma analyze_Ok_inv (performance_data : list row) (m : gmap string pyval) :
  analyze_rag_vs_context_dumping performance_data = Ok m →
  (m = ∅ ∧ (next_with_method "RAG" performance_data = None
            ∨ next_with_method "CONTEXT_DUMP" performance_data = None))
  ∨ ∃ rag_data context_data p c q,
      next_with_method "RAG" performance_data = Some rag_data
      ∧ next_with_method "CONTEXT_DUMP" performance_data = Some context_data
      ∧ performance_improvement_factor rag_data context_data = Ok p
      ∧ cost_reduction_factor rag_data context_data = Ok c
      ∧ quality_improvement_percent rag_data context_data = Ok q
      ∧ m = {[ "rag_metrics" := VDict (dict_of_row rag_data);
               "context_dump_metrics" := VDict (dict_of_row context_data);
               "performance_improvement_factor" := VDec p;
               "cost_reduction_factor" := VDec c;
               "quality_improvement_percent" := VDec q ]}.
Proof.
  unfold analyze_rag_vs_context_dumping.
  destruct (next_with_method "RAG" performance_data) as [rag_data|] eqn:Hr;
    [destruct (next_with_method "CONTEXT_DUMP" performance_data) as [context_data|] eqn:Hc|].
  - intros H. right.
    apply bind_Ok in H as (p & Hp & H).
    apply bind_Ok in H as (c & Hc' & H).
    apply bind_Ok in H as (q & Hq & H).
    injection H as <-. by exists rag_data, context_data, p, c, q.
  - intros [= <-]. left. auto.
  - intros [= <-]. left. auto.
Qed.

Lemma analyze_missing_group (performance_data : list row) :
  next_with_method "RAG" performance_data = None
  ∨ next_with_method "CONTEXT_DUMP" performance_data = None →
  analyze_rag_vs_context_dumping performance_data = Ok ∅.
Proof.
  unfold analyze_rag_vs_context_dumping. intros [-> | ->]; [done|].
  by destruct (next_with_method "RAG" performance_data).
Qed.

Lemma five_keys_dom (v1 v2 v3 v4 v5 : pyval) :
  dom ({[ "rag_metrics" := v1; "context_dump_metrics" := v2;
          "performance_improvement_factor" := v3; "cost_reduction_factor" := v4;
          "quality_improvement_percent" := v5 ]} : gmap string pyval)
  = analysis_keys.
Proof.
  unfold analysis_keys. rewrite !dom_insert_L, dom_singleton_L. set_solver.
Qed.

(** The rows of a method among the groups of the query: the one group of
    the method, when some joined row carries it. *)
Lemma filter_method_fetch (m : string) (metrics : list PerformanceMetrics) :
  filter (fun r => processing_method r = Some m) (fetch_performance_data metrics)
  = if decide (Some m ∈ method <$> metrics)
    then [group_row (Some m) (filter (fun r => method r = Some m) metrics)]
    else [].
Proof.
  unfold fetch_performance_data.
  assert (Hnd : NoDup (remove_dups (method <$> metrics))) by apply NoDup_remove_dups.
  assert (Hin : ∀ x, x ∈ remove_dups (method <$> metrics) ↔ x ∈ method <$> metrics)
    by (intros x; apply elem_of_remove_dups).
  assert (Hout : ∀ ms : list (option string), Some m ∉ ms →
            filter (fun r => processing_method r = Some m)
              ((fun k => group_row k (filter (fun r => method r = k) metrics)) <$> ms) = []).
  { induction ms as [|k ms IH]; intros Hk; [done|].
    apply not_elem_of_cons in Hk as [Hne Hk].
    rewrite fmap_cons, filter_cons. cbn [processing_method group_row].
    destruct (decide (k = Some m)) as [->|_]; [done|]. by apply IH. }
  destruct (decide (Some m ∈ method <$> metrics)) as [Hm|Hm].
  - apply Hin in Hm. revert Hnd Hm.
    generalize (remove_dups (method <$> metrics)) as ms.
    induction ms as [|k ms IH]; intros Hnd Hm; [by apply elem_of_nil in Hm|].
    rewrite fmap_cons, filter_cons. cbn [processing_method group_row].
    apply NoDup_cons in Hnd as [Hk Hnd].
    destruct (decide (k = Some m)) as [->|Hne].
    + by rewrite (Hout ms Hk).
    + apply elem_of_cons in Hm as [Heq|Hm]; [congruence|]. by apply IH.
  - apply Hout. by rewrite Hin.
Qed.

(** A group is present in the result of the query exactly when some joined
    row carries its method. *)
Lemma next_with_method_fetch (m : string) (metrics : list PerformanceMetrics) :
  next_with_method m (fetch_performance_data metrics)
  = if decide (Some m ∈ method <$> metrics)
    then Some (group_row (Some m) (filter (fun r => method r = Some m) metrics))
    else None.
Proof.
  unfold next_with_method. rewrite filter_method_fetch.
  by destruct (decide (Some m ∈ method <$> metrics)).
Qed.

(** The lookup of a method does not depend on the order in which the query
    returns the groups. *)
Lemma next_with_method_returns (m : string) (metrics : list PerformanceMetrics)
    (rows : list row) :
  query_returns metrics rows →
  next_with_method m rows = next_with_method m (fetch_performance_data metrics).
Proof.
  unfold query_returns, next_with_method. intros Hp.
  assert (Hf : filter (fun r => processing_method r = Some m) rows
               ≡ₚ filter (fun r => processing_method r = Some m)
                    (fetch_performance_data metrics)) by (by rewrite Hp).
  rewrite filter_method_fetch in Hf |- *.
  destruct (decide (Some m ∈ method <$> metrics)).
  - by apply Permutation_singleton_r in Hf as ->.
  - by apply Permutation_nil_r in Hf as ->.
Qed.

Lemma analyze_returns (metrics : list PerformanceMetrics) (rows : list row) :
  query_returns metrics rows →
  analyze_rag_vs_context_dumping rows
  = analyze_rag_vs_context_dumping (fetch_performance_data metrics).
Proof.
  intros Hq. unfold analyze_rag_vs_context_dumping.
  by rewrite !(next_with_method_returns _ metrics rows Hq).
Qed.

Lemma summary_returns now str_of_container
    (metrics : list PerformanceMetrics) (rows : list row) :
  query_returns metrics rows →
  generate_executive_summary now str_of_container rows
  = generate_executive_summary now str_of_container (fetch_performance_data metrics).
Proof.
  intros Hq. unfold generate_executive_summary. by rewrite (analyze_returns _ _ Hq).
Qed.

Lemma summary_of_empty now str_of_container (performance_data : list row) :
  analyze_rag_vs_context_dumping performance_data = Ok ∅ →
  generate_executive_summary now str_of_container performance_data = Ok no_data.
Proof. unfold generate_executive_summary. intros ->. reflexivity. Qed.

(** ** Empty input and missing groups *)

(** Claim C4.  For the empty input the query returns no row, in whatever
    order it returns its groups; the analysis returns the empty dict, and
    the executive summary is the report
    [{"error": "No data available for analysis"}]: the call returns, nothing
    is raised and no division is evaluated. *)
Theorem empty_input_reports_no_data now str_of_container :
  fetch_performance_data [] = []
  ∧ analyze_rag_vs_context_dumping (fetch_performance_data []) = Ok ∅
  ∧ generate_executive_summary now str_of_container (fetch_performance_data [])
    = Ok no_data
  ∧ ∀ rows, query_returns [] rows → rows = [].
Proof.
  repeat split. intros rows Hq. by apply Permutation_nil_r in Hq.
Qed.

(** Claim C5.  When no joined row carries the method RAG, or none carries
    CONTEXT_DUMP, then on the rows the query returns, in whatever order, the
    analysis returns the empty dict (the comparison is absent) and the
    executive summary returns the no-data report; both calls return
    normally. *)
Theorem missing_group_gives_empty_comparison
    now str_of_container (metrics : list PerformanceMetrics) (rows : list row) :
  Some "RAG" ∉ method <$> metrics ∨ Some "CONTEXT_DUMP" ∉ method <$> metrics →
  query_returns metrics rows →
  analyze_rag_vs_context_dumping rows = Ok ∅
  ∧ generate_executive_summary now str_of_container rows = Ok no_data.
Proof.
  intros H Hq.
  assert (Ha : analyze_rag_vs_context_dumping rows = Ok ∅).
  { rewrite (analyze_returns _ _ Hq).
    apply analyze_missing_group. rewrite !next_with_method_fetch.
    destruct H as [H|H]; [left|right]; by rewrite decide_False. }
  split; [done|]. by apply summary_of_empty.
Qed.

Lemma missing_group_witness :
  analyze_rag_vs_context_dumping
    (fetch_performance_data [record 3000 (dec 2 (-2)) (dec 80 (-2)) 3 4000 "CONTEXT_DUMP"])
  = Ok ∅
  ∧ generate_executive_summary "2025-01-01T00:00:00" (fun _ => "")
      (fetch_performance_data [record 3000 (dec 2 (-2)) (dec 80 (-2)) 3 4000 "CONTEXT_DUMP"])
    = Ok no_data.
Proof.
  apply (missing_group_gives_empty_comparison "2025-01-01T00:00:00" (fun _ => "")
           [record 3000 (dec 2 (-2)) (dec 80 (-2)) 3 4000 "CONTEXT_DUMP"]).
  - left. vm_compute. intros H. inversion H as [|? ? ? H']; inversion H'.
  - unfold query_returns. reflexivity.
Defined.

(** Claim C10.  The analysis is all or nothing.  When a group is absent from
    the fetched rows the call returns the empty dict; and whatever dict a call
    returns is either empty, a group being absent, or has exactly the five
    keys rag_metrics, context_dump_metrics, performance_improvement_factor,
    cost_reduction_factor and quality_improvement_percent, both groups being
    present.  No other set of keys is ever returned. *)
Theorem analysis_all_or_nothing (performance_data : list row) :
  (next_with_method "RAG" performance_data = None
   ∨ next_with_method "CONTEXT_DUMP" performance_data = None →
   analyze_rag_vs_context_dumping performance_data = Ok ∅)
  ∧ ∀ m, analyze_rag_vs_context_dumping performance_data = Ok m →
      (m = ∅ ∧ (next_with_method "RAG" performance_data = None
                ∨ next_with_method "CONTEXT_DUMP" performance_data = None))
      ∨ (dom m = analysis_keys
         ∧ is_Some (next_with_method "RAG" performance_data)
         ∧ is_Some (next_with_method "CONTEXT_DUMP" performance_data)).
Proof.
  split; [apply analyze_missing_group|].
  intros m Hm. apply analyze_Ok_inv in Hm as [?|(rag & ctx & p & c & q & Hr & Hc & _ & _ & _ & ->)].
  - by left.
  - right. rewrite five_keys_dom, Hr, Hc. eauto.
Qed.

(** ** Zero denominators *)

(** A quotient by a zero, rounded: an exception, unless the numerator is the
    NaN. *)
Lemma rounded_quotient_by_zero (x : Decimal.num) (d : Decimal.t) (n : Z) :
  Decimal.coef d = 0 → x ≠ Decimal.NaN →
  ∃ e, (q ← Decimal.truediv x (Decimal.Fin d); Decimal.rounded q n) = Raise e.
Proof.
  intros Hd Hx. destruct x as [a|s|]; [| |done].
  - cbn [Decimal.truediv]. unfold Decimal.div. rewrite Hd. cbn.
    destruct (Decimal.coef a =? 0); cbn; eauto.
  - cbn. eauto.
Qed.

Lemma field_ratio_zero (x y : option Decimal.num) (n : Z) :
  is_zero y → x ≠ Some Decimal.NaN →
  ∃ e, (q ← field_div x y; Decimal.rounded q n) = Raise e.
Proof.
  intros (d & -> & Hd) Hx. destruct x as [a|]; [|cbn; eauto].
  cbn [field_div]. apply rounded_quotient_by_zero; [done|congruence].
Qed.

Lemma performance_factor_zero (rag_data context_data : row) :
  is_zero (avg_response_time_ms rag_data) →
  avg_response_time_ms context_data ≠ Some Decimal.NaN →
  ∃ e, performance_improvement_factor rag_data context_data = Raise e.
Proof. intros Hz Hn. by apply field_ratio_zero. Qed.

Lemma cost_factor_zero (rag_data context_data : row) :
  is_zero (avg_cost_usd rag_data) →
  avg_cost_usd context_data ≠ Some Decimal.NaN →
  ∃ e, cost_reduction_factor rag_data context_data = Raise e.
Proof. intros Hz Hn. by apply field_ratio_zero. Qed.

Lemma quality_percent_zero (rag_data context_data : row) :
  is_zero (avg_quality_score context_data) →
  avg_quality_score rag_data ≠ Some Decimal.NaN →
  ∃ e, quality_improvement_percent rag_data context_data = Raise e.
Proof.
  intros (d & Hc & Hd) Hn. unfold quality_improvement_percent. rewrite Hc.
  destruct (avg_quality_score rag_data) as [[a|s|]|]; [| |done|cbn; eauto].
  - cbn. unfold Decimal.div. rewrite Hd. cbn.
    destruct (Decimal.coef (Decimal.sub a d) =? 0); cbn; eauto.
  - cbn. eauto.
Qed.

(** With a NaN numerator each factor is the NaN, whatever Decimal the
    denominator is. *)
Lemma factors_of_nan (rag_data context_data : row) :
  (avg_response_time_ms context_data = Some Decimal.NaN →
   is_Some (avg_response_time_ms rag_data) →
   performance_improvement_factor rag_data context_data = Ok Decimal.NaN)
  ∧ (avg_cost_usd context_data = Some Decimal.NaN →
     is_Some (avg_cost_usd rag_data) →
     cost_reduction_factor rag_data context_data = Ok Decimal.NaN)
  ∧ (avg_quality_score rag_data = Some Decimal.NaN →
     is_Some (avg_quality_score context_data) →
     quality_improvement_percent rag_data context_data = Ok Decimal.NaN).
Proof.
  split_and!.
  - intros Hc [d Hr]. unfold performance_improvement_factor. by rewrite Hc, Hr.
  - intros Hc [d Hr]. unfold cost_reduction_factor. by rewrite Hc, Hr.
  - intros Hr [d Hc]. unfold quality_improvement_percent. rewrite Hc, Hr.
    by destruct d.
Qed.

(** The second query of [get_performance_analysis] is rejected. *)
Lemma performers_query_rejected ordered table :
  Project22.performers_query ordered table = Raise ProgrammingError.
Proof. reflexivity. Qed.



(** ** The end-to-end scenario *)

(** Claim C3, as the code has it.  On the three records of the scenario the
    query gives RAG: count 2, mean time 600.00, mean cost 0.002500, mean
    quality 0.925, and CONTEXT_DUMP: count 1, mean time 3000.00; the analysis
    gives performance_improvement_factor 5.0, cost_reduction_factor 8.0 and
    quality_improvement_percent 15.62 (15.625 rounded half to even), in
    whatever order the query returns the two groups. *)
Theorem scenario_end_to_end :
  fetch_performance_data scenario = [scenario_rag; scenario_context_dump]
  ∧ query_count scenario_rag = 2
  ∧ avg_response_time_ms scenario_rag = Some (dec 60000 (-2))
  ∧ avg_cost_usd scenario_rag = Some (dec 2500 (-6))
  ∧ avg_quality_score scenario_rag = Some (dec 925 (-3))
  ∧ query_count scenario_context_dump = 1
  ∧ avg_response_time_ms scenario_context_dump = Some (dec 300000 (-2))
  ∧ (∃ m, analyze_rag_vs_context_dumping (fetch_performance_data scenario) = Ok m
      ∧ m !! "performance_improvement_factor" = Some (VDec (dec 50 (-1)))
      ∧ m !! "cost_reduction_factor" = Some (VDec (dec 80 (-1)))
      ∧ m !! "quality_improvement_percent" = Some (VDec (dec 1562 (-2))))
  ∧ ∀ rows, query_returns scenario rows →
      analyze_rag_vs_context_dumping rows
      = analyze_rag_vs_context_dumping (fetch_performance_data scenario).
Proof.
  split; [apply scenario_fetch|]. do 6 (split; [reflexivity|]).
  split; [|apply analyze_returns].
  eexists. split; [apply scenario_analysis|]. by vm_compute.
Qed.

(** Claim C3 as stated fails: the quality_improvement_percent computed on
    the scenario is 15.62, which is not the 15.63 of the claim. *)
Lemma scenario_quality_counterexample :
  (m ← analyze_rag_vs_context_dumping (fetch_performance_data scenario);
   mret (m !! "quality_improvement_percent"))
  = Ok (Some (VDec (dec 1562 (-2))))
  ∧ Decimal.equal (dec 1562 (-2)) (dec 1563 (-2)) = false.
Proof. by vm_compute. Qed.

(** ** Direction of the ratios *)

(** Claim C1 as stated fails: with RAG the slower method (mean 3000.00 ms
    against 600.00 ms) the computed factor is 0.2, not the 5.0 that slower
    over faster gives, and it is below 1.0 although the means are positive
    and differ. *)
Lemma performance_factor_counterexample :
  (m ← analyze_rag_vs_context_dumping rag_slower;
   mret (m !! "performance_improvement_factor"))
  = Ok (Some (VDec (dec 2 (-1))))
  ∧ slower_over_faster slow_rag fast_context_dump = Ok (dec 50 (-1))
  ∧ Decimal.gt (dec 10 (-1)) (dec 2 (-1)) = Ok true.
Proof. by vm_compute. Qed.


(** ** The two ratio factors *)

Lemma rounded_fin (m : result Decimal.t) (n : Z) :
  (q ← Decimal.Fin <$> m; Decimal.rounded q n)
  = Decimal.Fin <$> (q ← m; Decimal.round q n).
Proof. by destruct m. Qed.

Lemma to_Q_le_1 (K : Z) : K ≤ 10 → (to_Q (Decimal.Dec false K (-1)) <= 1)%Q.
Proof.
  intros HK. rewrite to_Q_unfold. cbn [sgn]. rewrite Z.mul_1_l.
  change (inject_Z 10 ^ (-1))%Q with (/ inject_Z 10)%Q.
  unfold Qle, Qmult, Qinv, inject_Z. cbn. lia.
Qed.

(** [round(num / den, 1)] on two finite row fields at a common scale. *)
Lemma ratio_factor (num den : Decimal.t) :
  0 ≤ Decimal.coef num → 0 < Decimal.coef den →
  Decimal.expo num = Decimal.expo den →
  Decimal.coef num < 10 ^ 25 →
  ∃ p, (q ← field_div (Some (Decimal.Fin num)) (Some (Decimal.Fin den));
        Decimal.rounded q 1) = Ok (Decimal.Fin p)
       ∧ Decimal.expo p = -1
       ∧ (to_Q p == round_places 1 (to_Q num / to_Q den))%Q
       ∧ (Decimal.sign num = Decimal.sign den →
          (Decimal.coef den ≤ Decimal.coef num → (1 <= to_Q p)%Q)
          ∧ (Decimal.coef num ≤ Decimal.coef den → (to_Q p <= 1)%Q)).
Proof.
  intros Hn Hd He Hb. eexists. split_and!.
  - cbn [field_div Decimal.truediv]. rewrite rounded_fin.
    rewrite (round_div num den 1); [reflexivity|done|done|done|lia|lia].
  - reflexivity.
  - apply to_Q_rounded_quotient; [done|done|lia].
  - intros Hs. rewrite Hs, xorb_nilpotent. split; intros Hle.
    + apply to_Q_ge_1. apply round_half_even_ge; lia.
    + apply to_Q_le_1. apply round_half_even_le; lia.
Qed.

(** Claim C1, as the code has it.  With both groups present, the
    performance factor is the CONTEXT_DUMP mean response time over the RAG
    one, whichever of the two is the slower.  For finite non-negative means
    at a common scale, a non-zero RAG mean and a CONTEXT_DUMP mean below
    10^25 units of that scale, the factor is computed, it is that quotient
    rounded once to one decimal place, halves to even, it is the entry of
    the dict a call returns, and it is at least 1 when CONTEXT_DUMP is not
    the faster and at most 1 when RAG is not the faster. *)
Theorem performance_factor_context_over_rag
    (performance_data : list row) (rag_data context_data : row) (r c : Decimal.t) :
  next_with_method "RAG" performance_data = Some rag_data →
  next_with_method "CONTEXT_DUMP" performance_data = Some context_data →
  avg_response_time_ms rag_data = Some (Decimal.Fin r) →
  avg_response_time_ms context_data = Some (Decimal.Fin c) →
  Decimal.sign r = false → Decimal.sign c = false →
  0 < Decimal.coef r → 0 ≤ Decimal.coef c →
  Decimal.expo c = Decimal.expo r →
  Decimal.coef c < 10 ^ 25 →
  ∃ p, performance_improvement_factor rag_data context_data = Ok (Decimal.Fin p)
       ∧ Decimal.expo p = -1
       ∧ (to_Q p == round_places 1 (to_Q c / to_Q r))%Q
       ∧ (Decimal.coef r ≤ Decimal.coef c → (1 <= to_Q p)%Q)
       ∧ (Decimal.coef c ≤ Decimal.coef r → (to_Q p <= 1)%Q)
       ∧ ∀ m, analyze_rag_vs_context_dumping performance_data = Ok m →
              m !! "performance_improvement_factor" = Some (VDec (Decimal.Fin p)).
Proof.
  intros Hrag Hctx Hr Hc Hsr Hsc Hr0 Hc0 He Hb.
  destruct (ratio_factor c r Hc0 Hr0 He Hb) as (p & Hp & Hexp & Hval & Hord).
  destruct Hord as [Hge Hle]; [congruence|].
  exists p. unfold performance_improvement_factor. rewrite Hr, Hc.
  split_and!; [done|done|done|done|done|].
  intros m Hm.
  apply analyze_Ok_inv in Hm as [[_ [Hn|Hn]]|(rag' & ctx' & p' & c' & q' & Hr' & Hc' & Hp' & _ & _ & ->)];
    [congruence|congruence|].
  rewrite Hrag in Hr'. rewrite Hctx in Hc'. injection Hr' as <-. injection Hc' as <-.
  unfold performance_improvement_factor in Hp'. rewrite Hr, Hc, Hp in Hp'.
  injection Hp' as <-. reflexivity.
Qed.

Lemma performance_factor_witness :
  ∃ p, performance_improvement_factor scenario_rag scenario_context_dump = Ok (Decimal.Fin p)
       ∧ Decimal.expo p = -1
       ∧ (to_Q p == round_places 1 (to_Q (fin 300000 (-2)) / to_Q (fin 60000 (-2))))%Q
       ∧ (Decimal.coef (fin 60000 (-2)) ≤ Decimal.coef (fin 300000 (-2)) → (1 <= to_Q p)%Q)
       ∧ (Decimal.coef (fin 300000 (-2)) ≤ Decimal.coef (fin 60000 (-2)) → (to_Q p <= 1)%Q)
       ∧ ∀ m, analyze_rag_vs_context_dumping (fetch_performance_data scenario) = Ok m →
              m !! "performance_improvement_factor" = Some (VDec (Decimal.Fin p)).
Proof.
  apply (performance_factor_context_over_rag (fetch_performance_data scenario)
           scenario_rag scenario_context_dump (fin 60000 (-2)) (fin 300000 (-2)));
    [vm_compute; reflexivity|vm_compute; reflexivity|reflexivity|reflexivity
    |reflexivity|reflexivity
    |vm_compute; reflexivity|vm_compute; discriminate|reflexivity|vm_compute; reflexivity].
Defined.



(** ** The quality percentage *)

(** A coefficient within the precision is left alone by [_fix]. *)
Lemma fix_small (sg : bool) (c e : Z) :
  0 ≤ c < 10 ^ 28 → Decimal.fix_ (Decimal.Dec sg c e) = Decimal.Dec sg c e.
Proof.
  intros Hc. unfold Decimal.fix_. cbn [Decimal.coef Decimal.expo Decimal.sign].
  destruct (Z.eqb_spec c 0) as [|Hc0]; [done|].
  assert (Decimal.ndigits c ≤ 28) by (apply ndigits_le; lia).
  unfold Decimal.prec.
  by destruct (Z.ltb_spec e (Decimal.ndigits c + e - 28)); [lia|].
Qed.

(** The difference of two values at a common exponent is exact. *)
Lemma sub_same_expo (sr sc : bool) (a b e : Z) :
  0 ≤ a → 0 < b → a + b < 10 ^ 28 →
  Decimal.sub (Decimal.Dec sr a e) (Decimal.Dec sc b e)
  = Decimal.Dec (sgn sr * a - sgn sc * b <? 0) (Z.abs (sgn sr * a - sgn sc * b)) e.
Proof.
  intros Ha Hb Hab. unfold Decimal.sub, Decimal.neg, Decimal.add.
  cbn [Decimal.sign Decimal.coef Decimal.expo]. rewrite Z.min_id.
  destruct (Z.eqb_spec b 0) as [|_]; [lia|].
  destruct (Z.eqb_spec a 0) as [->|Ha0]; cbn [andb].
  - unfold Decimal.rescale, Decimal.prec. cbn [Decimal.sign Decimal.coef Decimal.expo].
    destruct (Z.eqb_spec b 0) as [|_]; [lia|].
    rewrite Z.max_l by lia. rewrite Z.leb_refl, Z.sub_diag, Z.mul_1_r.
    rewrite fix_small by lia.
    destruct sr, sc; cbn [sgn negb]; f_equal; lia.
  - unfold Decimal.normalize. cbn [fst snd]. rewrite Z.ltb_irrefl.
    assert (Hnd : 1 ≤ Decimal.ndigits b) by (apply ndigits_spec; lia).
    destruct (Z.ltb_spec (Decimal.ndigits b + e - 1)
                (e + Z.min (-1) (Decimal.ndigits a - Decimal.prec - 2))) as [|_]; [lia|].
    cbn [fst snd]. rewrite Z.sub_diag, Z.mul_1_r.
    destruct sr, sc; cbn [sgn negb eqb];
      try (rewrite fix_small by lia; f_equal; lia);
      (destruct (Z.eqb_spec a b) as [->|Hab'];
       [f_equal; lia
       |destruct (Z.ltb_spec a b); rewrite fix_small by lia; f_equal; lia]).
Qed.

(** Multiplying a rounded fraction by 100 gives the rounded hundredfold
    fraction, for fractions below 10^22. *)
Lemma mul100_rounds (sg : bool) (N D c e : Z) :
  0 < N → 0 < D → N < 10 ^ 22 → rounds N D c e →
  ∃ c' e', Decimal.mul (Decimal.Dec sg c e) (Decimal.of_int 100) = Decimal.Dec sg c' e'
           ∧ rounds (100 * N) D c' e'.
Proof.
  intros HN HD Hb Hr.
  pose proof (rounds_pos _ _ _ _ HN HD Hr) as Hc.
  pose proof (rounds_le _ _ _ _ HN HD Hr) as Hle.
  destruct Hr as (He & Hceq & Hex & Hlt).
  assert (Hpe : 0 < 10 ^ (- e)) by (apply pow10_pos; lia).
  unfold Decimal.mul, Decimal.of_int.
  cbn [Decimal.sign Decimal.coef Decimal.expo].
  change (100 <? 0) with false. change (Z.abs 100) with 100.
  rewrite xorb_false_r, Z.add_0_r.
  (* the size of [c * 100] against the exponent *)
  assert (Hsize : ∀ j, 0 ≤ j → 10 ^ (27 + j) ≤ c * 100 → j + 3 < - e).
  { intros j Hj Hge.
    assert (10 ^ (27 + j) < 10 ^ (24 + - e)).
    { rewrite (pow10_add 24 (- e)) by lia.
      assert (c * 100 < 10 ^ 24 * 10 ^ (- e)); [|lia].
      replace (10 ^ 24) with (10 ^ 22 * 100) by reflexivity. nia. }
    apply pow10_lt_inv in H; lia. }
  apply fix_rounds; [done|lia|done|].
  destruct (Z_le_gt_dec (Decimal.ndigits (c * 100)) 28) as [Hs|Hbig].
  - destruct Hex as [Hex|Hex].
    + left. split; [done|]. nia.
    + exfalso. assert (29 ≤ Decimal.ndigits (c * 100)); [|lia].
      apply ndigits_ge; [|lia]. change (10 ^ (29 - 1)) with (10 ^ 27 * 10). lia.
  - right.
    set (j := Decimal.ndigits (c * 100) - 28) in *.
    destruct (ndigits_spec (c * 100) ltac:(lia)) as (_ & Hlo & _).
    replace (Decimal.ndigits (c * 100) - 1) with (27 + j) in Hlo by lia.
    pose proof (Hsize j ltac:(lia) Hlo) as Hje.
    split; [lia|]. split; [lia|].
    assert (Hpj : 0 < 10 ^ j) by (apply pow10_pos; lia).
    destruct Hex as [Hex|Hex].
    + replace (100 * N * 10 ^ (- e)) with (c * 100 * D) by nia.
      rewrite (Z.mul_comm D (10 ^ j)).
      by rewrite round_half_even_scale.
    + assert (Hj2 : j = 2).
      { unfold j. assert (Decimal.ndigits (c * 100) = 30); [|lia].
        apply ndigits_unique; [|lia].
        change (10 ^ (30 - 1)) with (10 ^ 27 * 100).
        change (10 ^ 30) with (10 ^ 28 * 100). lia. }
      rewrite Hj2. change (10 ^ 2) with 100.
      rewrite round_half_even_exact by lia.
      replace (100 * N * 10 ^ (- e)) with (N * 10 ^ (- e) * 100) by lia.
      by rewrite round_half_even_scale by lia.
Qed.

(** [round((r - c) / c * 100, 2)] on values at a common exponent: the
    quotient of the signed difference by the denominator, rounded once. *)
Lemma round_percent (sr sc : bool) (a b e : Z) :
  0 ≤ a → 0 < b → a + b < 10 ^ 22 →
  (q ← Decimal.div (Decimal.sub (Decimal.Dec sr a e) (Decimal.Dec sc b e))
         (Decimal.Dec sc b e);
   Decimal.round (Decimal.mul q (Decimal.of_int 100)) 2)
  = Ok (Decimal.Dec (xorb (sgn sr * a - sgn sc * b <? 0) sc)
          (Decimal.round_half_even (Z.abs (sgn sr * a - sgn sc * b) * 10 ^ 4) b) (-2)).
Proof.
  intros Ha Hb Hab.
  assert (H22 : 10 ^ 22 < 10 ^ 28) by reflexivity.
  rewrite sub_same_expo by lia.
  assert (Hd : 0 ≤ Z.abs (sgn sr * a - sgn sc * b) < 10 ^ 22)
    by (destruct sr, sc; cbn [sgn]; lia).
  revert Hd. generalize (Z.abs (sgn sr * a - sgn sc * b)).
  generalize (sgn sr * a - sgn sc * b <? 0). intros s d Hd.
  destruct (Z.eq_dec d 0) as [Hd0|Hd0].
  - rewrite Hd0. unfold Decimal.div. cbn [Decimal.coef Decimal.sign Decimal.expo].
    destruct (Z.eqb_spec b 0) as [|_]; [lia|].
    rewrite Z.eqb_refl. cbn [mbind result_bind]. rewrite Z.sub_diag.
    unfold Decimal.mul, Decimal.fix_, Decimal.round, Decimal.quantize.
    cbn [Decimal.coef Decimal.sign Decimal.expo]. rewrite Z.mul_0_l, Z.eqb_refl.
    cbn [Decimal.coef Decimal.sign Decimal.expo]. rewrite Z.eqb_refl.
    change (0 * 10 ^ 4) with (0 * b). rewrite round_half_even_exact by lia.
    change (Decimal.sign (Decimal.of_int 100)) with false. by rewrite xorb_false_r.
  - assert (Hlen : Decimal.ndigits d ≤ Decimal.ndigits b + 26).
    { assert (Decimal.ndigits d ≤ 22) by (apply ndigits_le; lia).
      destruct (ndigits_spec b ltac:(lia)) as (? & _). lia. }
    destruct (div_rounds (Decimal.Dec s d e) (Decimal.Dec sc b e)) as (c & e' & Hdiv & Hr);
      [cbn [Decimal.coef]; lia|cbn [Decimal.coef]; lia|reflexivity|exact Hlen|].
    rewrite Hdiv. cbn [Decimal.coef Decimal.sign] in Hr |- *.
    cbn [mbind result_bind].
    destruct (mul100_rounds (xorb s sc) d b c e') as (c' & e'' & Hmul & Hr');
      [lia|lia|lia|exact Hr|].
    rewrite Hmul. unfold Decimal.round.
    rewrite (quantize_rounds (xorb s sc) (100 * d) b c' e'' 2); [|lia|lia|lia| |done].
    + replace (100 * d * 10 ^ 2) with (d * 10 ^ 4); [reflexivity|].
      change (10 ^ 4) with 10000. change (10 ^ 2) with 100. lia.
    + change (10 ^ 2) with 100.
      assert (100 * d * 100 < 10 ^ 22 * 10000) by lia.
      assert (H26 : 10 ^ 22 * 10000 = 10 ^ 26) by reflexivity. lia.
Qed.

Lemma round_places_comp (n : Z) (q q' : Q) :
  (q == q')%Q → (round_places n q == round_places n q')%Q.
Proof.
  intros Hq. unfold round_places.
  rewrite (Qround_half_even_comp (q * inject_Z 10 ^ n) (q' * inject_Z 10 ^ n));
    [reflexivity|]. by rewrite Hq.
Qed.

(** The value of the rounded percentage. *)
Lemma to_Q_percent (sr sc : bool) (a b e : Z) :
  0 < b →
  (to_Q (Decimal.Dec (xorb (sgn sr * a - sgn sc * b <? 0) sc)
           (Decimal.round_half_even (Z.abs (sgn sr * a - sgn sc * b) * 10 ^ 4) b) (-2))
   == round_places 2
        ((to_Q (Decimal.Dec sr a e) - to_Q (Decimal.Dec sc b e))
         / to_Q (Decimal.Dec sc b e) * inject_Z 100))%Q.
Proof.
  intros Hb. set (v := sgn sr * a - sgn sc * b).
  pose proof (to_Q_rounded_quotient
                (Decimal.Dec (v <? 0) (Z.abs v * 100) e)
                (Decimal.Dec sc b e) 2 Hb eq_refl ltac:(lia)) as H.
  cbn [Decimal.sign Decimal.coef] in H.
  replace (Z.abs v * 100 * 10 ^ 2) with (Z.abs v * 10 ^ 4) in H
    by (change (10 ^ 4) with 10000; change (10 ^ 2) with 100; lia).
  change (- (2)) with (-2) in H. rewrite H. apply round_places_comp.
  rewrite !to_Q_unfold.
  replace (sgn (v <? 0) * (Z.abs v * 100)) with (v * 100)
    by (destruct (Z.ltb_spec v 0); cbn [sgn]; lia).
  pose proof (pow10_Q_nonzero e) as He.
  assert (Hbq : ¬ (inject_Z b == 0)%Q) by (apply inject_Z_nonzero; lia).
  assert (Hsq : ¬ (inject_Z (sgn sc) == 0)%Q)
    by (apply inject_Z_nonzero; by destruct sc).
  unfold v, Z.sub. rewrite !inject_Z_mult, inject_Z_plus, inject_Z_opp, !inject_Z_mult.
  generalize dependent (inject_Z 10 ^ e)%Q. intros P HP.
  field. by split_and!.
Qed.

Lemma rounded_percent_fin (m : result Decimal.t) (k : Decimal.t) (n : Z) :
  (q ← Decimal.Fin <$> m;
   h ← Decimal.times q (Decimal.Fin k);
   Decimal.rounded h n)
  = Decimal.Fin <$> (q ← m; Decimal.round (Decimal.mul q k) n).
Proof. by destruct m. Qed.



(** ** The return on investment *)

(** A value written at a lower exponent. *)
Lemma to_Q_scaled (x : Decimal.t) (e : Z) :
  e ≤ Decimal.expo x →
  (to_Q x == inject_Z (Decimal.scaled x e) * inject_Z 10 ^ e)%Q.
Proof.
  intros He. unfold to_Q, Decimal.scaled.
  rewrite (inject_Z_mult _ (10 ^ (Decimal.expo x - e))).
  rewrite <- (pow10_Q_inject (Decimal.expo x - e)) by lia.
  rewrite <- Qmult_assoc, <- Qpower_plus by (apply inject_Z_nonzero; lia).
  by replace (Decimal.expo x - e + e) with (Decimal.expo x) by lia.
Qed.

(** [_cmp] compares the values. *)
Lemma gtb_spec (x y : Decimal.t) :
  Decimal.gtb x y = true ↔ (to_Q y < to_Q x)%Q.
Proof.
  unfold Decimal.gtb, Decimal.cmp.
  set (e := Z.min (Decimal.expo x) (Decimal.expo y)).
  rewrite (to_Q_scaled x e), (to_Q_scaled y e) by lia.
  rewrite Qmult_lt_r by apply pow10_Q_pos. rewrite <- Zlt_Qlt.
  destruct (Z.compare_spec (Decimal.scaled x e) (Decimal.scaled y e));
    split; intros; (done || lia).
Qed.

(** The ROI of two Decimal factors, when it is computed, is the int 900 or
    a Decimal. *)
Lemma roi_percent_number (p c : Decimal.num) (roi : pyval) :
  roi_percent (VDec p) (VDec c) = Ok roi →
  roi = VInt 900 ∨ ∃ d, roi = VDec d.
Proof.
  unfold roi_percent. cbn [py_mul].
  destruct (Decimal.times p c) as [pc|]; [|discriminate].
  cbn [fmap result_fmap mbind result_bind py_mul].
  destruct (Decimal.times pc _) as [pc20|]; [|discriminate].
  cbn [fmap result_fmap mbind result_bind]. unfold py_min_int. cbn [py_int_lt].
  destruct (Decimal.gt pc20 _) as [[]|]; cbn; intros [= <-]; eauto.
Qed.

(** The ROI of two finite factors: the cap 900 when the product times 20 is
    above it, that product otherwise. *)
Lemma roi_percent_fin (p c : Decimal.t) :
  roi_percent (VDec (Decimal.Fin p)) (VDec (Decimal.Fin c))
  = Ok (let x := Decimal.mul (Decimal.mul p c) (Decimal.of_int 20) in
        if Decimal.gtb x (Decimal.of_int 900) then VInt 900 else VDec (Decimal.Fin x)).
Proof. reflexivity. Qed.

(** With a NaN factor no ROI is computed: the comparison of [min] raises. *)
Lemma roi_percent_nan (c : Decimal.num) :
  roi_percent (VDec Decimal.NaN) (VDec c) = Raise InvalidOperation.
Proof. by destruct c. Qed.

(** The product of two factors times 20 is exact within the precision. *)
Lemma mul_mul_20 (p c : Decimal.t) :
  0 ≤ Decimal.coef p → 0 ≤ Decimal.coef c →
  Decimal.coef p * Decimal.coef c * 20 < 10 ^ 28 →
  Decimal.mul (Decimal.mul p c) (Decimal.of_int 20)
  = Decimal.Dec (xorb (Decimal.sign p) (Decimal.sign c))
      (Decimal.coef p * Decimal.coef c * 20) (Decimal.expo p + Decimal.expo c).
Proof.
  intros Hp Hc Hb. unfold Decimal.mul at 2. rewrite fix_small by nia.
  unfold Decimal.mul, Decimal.of_int. cbn [Decimal.sign Decimal.coef Decimal.expo].
  change (20 <? 0) with false. change (Z.abs 20) with 20.
  rewrite xorb_false_r, Z.add_0_r. apply fix_small. nia.
Qed.

(** Claim C8.  For two finite factors whose product times 20 fits the
    precision, the ROI is computed and is the product of the factors times
    20, capped at 900: the int 900 when the product is above 900, the exact
    product otherwise; it never exceeds 900. *)
Theorem roi_is_capped_product (p c : Decimal.t) :
  0 ≤ Decimal.coef p → 0 ≤ Decimal.coef c →
  Decimal.coef p * Decimal.coef c * 20 < 10 ^ 28 →
  ∃ roi v, roi_percent (VDec (Decimal.Fin p)) (VDec (Decimal.Fin c)) = Ok roi
           ∧ number roi = Some v
           ∧ (v == Qmin (to_Q p * to_Q c * inject_Z 20) (inject_Z 900))%Q
           ∧ (v <= inject_Z 900)%Q.
Proof.
  intros Hp Hc Hb. rewrite roi_percent_fin. cbv zeta.
  rewrite (mul_mul_20 p c Hp Hc Hb).
  set (x := Decimal.Dec _ _ _).
  assert (Hx : (to_Q x == to_Q p * to_Q c * inject_Z 20)%Q).
  { unfold x. rewrite !to_Q_unfold. unfold to_Q.
    fold (sgn (Decimal.sign p)). fold (sgn (Decimal.sign c)).
    rewrite sgn_xorb.
    rewrite Qpower_plus by (apply inject_Z_nonzero; lia).
    rewrite !inject_Z_mult.
    generalize (inject_Z 10 ^ Decimal.expo p)%Q (inject_Z 10 ^ Decimal.expo c)%Q.
    intros P C. ring. }
  assert (H900 : (to_Q (Decimal.of_int 900) == inject_Z 900)%Q).
  { by vm_compute. }
  pose proof (gtb_spec x (Decimal.of_int 900)) as Hgt.
  destruct (Decimal.gtb x (Decimal.of_int 900)).
  - assert (Hlt : (inject_Z 900 < to_Q x)%Q) by (rewrite <- H900; by apply Hgt).
    exists (VInt 900), (inject_Z 900). split_and!; [done|done| |apply Qle_refl].
    rewrite <- Hx. symmetry. apply Q.min_r. by apply Qlt_le_weak.
  - assert (Hle : (to_Q x <= inject_Z 900)%Q).
    { apply Qnot_lt_le. intros Hlt. rewrite <- H900 in Hlt.
      apply Hgt in Hlt. discriminate. }
    exists (VDec (Decimal.Fin x)), (to_Q x). split_and!; [done|done| |done].
    rewrite <- Hx. symmetry. by apply Q.min_l.
Qed.

Lemma roi_witness :
  ∃ roi v, roi_percent (VDec (dec 50 (-1))) (VDec (dec 80 (-1))) = Ok roi
           ∧ number roi = Some v
           ∧ (v == Qmin (to_Q (fin 50 (-1)) * to_Q (fin 80 (-1)) * inject_Z 20)
                   (inject_Z 900))%Q
           ∧ (v <= inject_Z 900)%Q.
Proof.
  apply (roi_is_capped_product (fin 50 (-1)) (fin 80 (-1)));
    [vm_compute; discriminate|vm_compute; discriminate|vm_compute; reflexivity].
Defined.

(** ** The executive summary *)

Lemma size_nonempty (m : gmap string pyval) (k : string) (v : pyval) :
  m !! k = Some v → Nat.eqb (size m) 0 = false.
Proof.
  intros Hk. apply Nat.eqb_neq. intros Hs. apply map_size_empty_iff in Hs.
  subst m. by rewrite lookup_empty in Hk.
Qed.

Lemma py_str_number str_of_container str_of_container' (v : pyval) :
  (∃ n, v = VInt n) ∨ (∃ d, v = VDec d) →
  py_str str_of_container v = py_str str_of_container' v.
Proof. by intros [[n ->]|[d ->]]. Qed.

(** Claim C9, as the code has it.  The summary is a function of the fetched
    rows and of the clock reading.  A second invocation over the same rows,
    at another time, returns a summary that agrees with the first on every
    entry but "timestamp".  A summary other than the no-data report carries
    the clock reading as its timestamp and the analysis itself as
    raw_analysis, and the numbers in key_achievements are the three factors
    of the analysis and the ROI computed from the first two. *)
Theorem summary_function_of_rows_and_clock
    now now' str_of_container str_of_container'
    (performance_data : list row) (s : gmap string pyval) :
  generate_executive_summary now str_of_container performance_data = Ok s →
  (∃ s', generate_executive_summary now' str_of_container' performance_data = Ok s'
         ∧ delete "timestamp" s' = delete "timestamp" s)
  ∧ ((analyze_rag_vs_context_dumping performance_data = Ok ∅ ∧ s = no_data)
     ∨ ∃ analysis p c q roi,
         analyze_rag_vs_context_dumping performance_data = Ok analysis
         ∧ analysis !! "performance_improvement_factor" = Some (VDec p)
         ∧ analysis !! "cost_reduction_factor" = Some (VDec c)
         ∧ analysis !! "quality_improvement_percent" = Some (VDec q)
         ∧ roi_percent (VDec p) (VDec c) = Ok roi
         ∧ (roi = VInt 900 ∨ ∃ d, roi = VDec d)
         ∧ s !! "timestamp" = Some (VStr now)
         ∧ s !! "raw_analysis" = Some (VDict analysis)
         ∧ s !! "key_achievements" = Some (VDict
             {[ "performance_improvement" :=
                  VStr (Decimal.str p +:+ "x faster than context dumping");
                "cost_reduction" :=
                  VStr (Decimal.str c +:+ "x cost reduction achieved");
                "quality_improvement" :=
                  VStr (Decimal.str q +:+ "% quality increase");
                "roi_delivered" :=
                  VStr (py_str str_of_container roi +:+ "% return on investment") ]})).
Proof.
  unfold generate_executive_summary.
  destruct (analyze_rag_vs_context_dumping performance_data) as [analysis|e] eqn:Ha;
    [|discriminate].
  cbn [mbind result_bind].
  destruct (analyze_Ok_inv _ _ Ha)
    as [[-> _]|(rag & ctx & p & c & q & _ & _ & _ & _ & _ & Hm)].
  - intros [= <-]. split; [by exists no_data|]. by left.
  - assert (Hp : analysis !! "performance_improvement_factor" = Some (VDec p))
      by (by rewrite Hm).
    assert (Hc : analysis !! "cost_reduction_factor" = Some (VDec c))
      by (by rewrite Hm).
    assert (Hq : analysis !! "quality_improvement_percent" = Some (VDec q))
      by (by rewrite Hm).
    clear Hm. rewrite (size_nonempty _ _ _ Hp).
    unfold executive_summary_of, get_or_zero. rewrite Hp, Hc, Hq.
    unfold default; cbn [from_option id].
    destruct (roi_percent (VDec p) (VDec c)) as [roi|] eqn:Hroi; [|discriminate].
    cbn [mbind result_bind mret result_ret].
    pose proof (roi_percent_number p c roi Hroi) as Hshape.
    assert (Hnum : (∃ n, roi = VInt n) ∨ (∃ d, roi = VDec d))
      by (destruct Hshape as [->|?]; eauto).
    intros [= <-]. split.
    + eexists. split; [reflexivity|].
      rewrite !delete_insert_eq.
      by rewrite (py_str_number str_of_container str_of_container' roi Hnum).
    + right. exists analysis, p, c, q, roi.
      repeat (split; [done|]). done.
Qed.

Lemma summary_function_witness :
  ∃ s', generate_executive_summary "2025-01-02T00:00:00" (fun _ => "")
          (fetch_performance_data scenario) = Ok s'
        ∧ delete "timestamp" s' = delete "timestamp" (scenario_summary "2025-01-01T00:00:00").
Proof.
  apply (summary_function_of_rows_and_clock
           "2025-01-01T00:00:00" "2025-01-02T00:00:00" (fun _ => "") (fun _ => "")
           (fetch_performance_data scenario) (scenario_summary "2025-01-01T00:00:00")).
  vm_compute. reflexivity.
Defined.

(** Claim C9 as stated fails: two invocations over the same rows at
    different times return different summaries. *)
Lemma summary_timestamp_counterexample :
  generate_executive_summary "2025-01-01T00:00:00" (fun _ => "")
    (fetch_performance_data scenario)
  ≠ generate_executive_summary "2025-01-02T00:00:00" (fun _ => "")
      (fetch_performance_data scenario).
Proof.
  intros H.
  apply (f_equal (fun r => s ← r; mret (s !! "timestamp"))) in H.
  vm_compute in H. discriminate.
Qed.

(** ** Further properties of the analysis *)

Lemma filter_method_absent (m : string) (rows : list row) :
  Some m ∉ processing_method <$> rows →
  filter (fun r => processing_method r = Some m) rows = [].
Proof.
  induction rows as [|r rows IH]; intros Hm; [done|].
  rewrite fmap_cons in Hm. apply not_elem_of_cons in Hm as [Hne Hm].
  rewrite filter_cons. destruct (decide (processing_method r = Some m)); [congruence|].
  by apply IH.
Qed.

(** Among rows of distinct methods at most one carries a given method. *)
Lemma filter_method_NoDup (m : string) (rows : list row) :
  NoDup (processing_method <$> rows) →
  (length (filter (fun r => processing_method r = Some m) rows) ≤ 1)%nat.
Proof.
  induction rows as [|r rows IH]; intros Hnd; [simpl; lia|].
  rewrite fmap_cons in Hnd. apply NoDup_cons in Hnd as [Hr Hnd].
  rewrite filter_cons. destruct (decide (processing_method r = Some m)) as [Hm|_].
  - rewrite filter_method_absent by (by rewrite <- Hm). simpl. lia.
  - by apply IH.
Qed.

Lemma next_with_method_perm (m : string) (rows rows' : list row) :
  rows ≡ₚ rows' → NoDup (processing_method <$> rows) →
  next_with_method m rows = next_with_method m rows'.
Proof.
  intros Hp Hnd. unfold next_with_method.
  pose proof (filter_method_NoDup m rows Hnd) as Hlen.
  assert (Hf : filter (fun r => processing_method r = Some m) rows
               ≡ₚ filter (fun r => processing_method r = Some m) rows') by (by rewrite Hp).
  destruct (filter (fun r => processing_method r = Some m) rows) as [|x [|y l]].
  - by apply Permutation_nil_l in Hf as ->.
  - by apply Permutation_singleton_l in Hf as ->.
  - simpl in Hlen. lia.
Qed.

(** The analysis and the summary do not depend on the order of the fetched
    rows, as long as no two of them carry the same method, which GROUP BY
    guarantees. *)
Theorem analysis_independent_of_row_order now str_of_container (rows rows' : list row) :
  rows ≡ₚ rows' → NoDup (processing_method <$> rows) →
  analyze_rag_vs_context_dumping rows = analyze_rag_vs_context_dumping rows'
  ∧ generate_executive_summary now str_of_container rows
    = generate_executive_summary now str_of_container rows'.
Proof.
  intros Hp Hnd.
  assert (Ha : analyze_rag_vs_context_dumping rows = analyze_rag_vs_context_dumping rows').
  { unfold analyze_rag_vs_context_dumping.
    by rewrite !(next_with_method_perm _ rows rows' Hp Hnd). }
  split; [done|]. unfold generate_executive_summary. by rewrite Ha.
Qed.

Lemma row_order_witness :
  analyze_rag_vs_context_dumping [scenario_rag; scenario_context_dump]
  = analyze_rag_vs_context_dumping [scenario_context_dump; scenario_rag]
  ∧ generate_executive_summary "2025-01-01T00:00:00" (fun _ => "")
      [scenario_rag; scenario_context_dump]
    = generate_executive_summary "2025-01-01T00:00:00" (fun _ => "")
        [scenario_context_dump; scenario_rag].
Proof.
  apply (analysis_independent_of_row_order "2025-01-01T00:00:00" (fun _ => "")
           [scenario_rag; scenario_context_dump] [scenario_context_dump; scenario_rag]).
  - apply perm_swap.
  - vm_compute. repeat constructor; intros H; inversion H as [|? ? ? H']; inversion H'.
Defined.

(** When the analysis returns a report whose performance factor or cost
    factor is the NaN, the executive summary is not produced: the [min] of
    the ROI compares the NaN with 900, and the call raises
    InvalidOperation. *)
Theorem summary_raises_on_nan_factor now str_of_container
    (performance_data : list row) (analysis : gmap string pyval) :
  analyze_rag_vs_context_dumping performance_data = Ok analysis →
  analysis !! "performance_improvement_factor" = Some (VDec Decimal.NaN)
  ∨ analysis !! "cost_reduction_factor" = Some (VDec Decimal.NaN) →
  generate_executive_summary now str_of_container performance_data
  = Raise InvalidOperation.
Proof.
  intros Ha Hnan. unfold generate_executive_summary. rewrite Ha.
  cbn [mbind result_bind].
  destruct (analyze_Ok_inv _ _ Ha)
    as [[-> _]|(rag & ctx & p & c & q & _ & _ & _ & _ & _ & Hm)].
  { destruct Hnan as [H|H]; by rewrite lookup_empty in H. }
  assert (Hp : analysis !! "performance_improvement_factor" = Some (VDec p))
    by (by rewrite Hm).
  assert (Hc : analysis !! "cost_reduction_factor" = Some (VDec c))
    by (by rewrite Hm).
  rewrite (size_nonempty _ _ _ Hp).
  unfold executive_summary_of, get_or_zero. rewrite Hp, Hc.
  unfold default; cbn [from_option id].
  assert (Hroi : roi_percent (VDec p) (VDec c) = Raise InvalidOperation).
  { destruct Hnan as [H|H]; rewrite H in *.
    - assert (p = Decimal.NaN) as -> by congruence. apply roi_percent_nan.
    - assert (c = Decimal.NaN) as -> by congruence. by destruct p. }
  by rewrite Hroi.
Qed.

Lemma summary_raises_witness :
  generate_executive_summary "2025-01-01T00:00:00" (fun _ => "") nan_over_zero
  = Raise InvalidOperation.
Proof.
  apply (summary_raises_on_nan_factor "2025-01-01T00:00:00" (fun _ => "") nan_over_zero
           {[ "rag_metrics" := VDict (dict_of_row
                (mk_row "RAG" 1 (dec 0 (-2)) (dec 2500 (-6)) (dec 900 (-3))));
              "context_dump_metrics" := VDict (dict_of_row
                (mk_row "CONTEXT_DUMP" 1 Decimal.NaN (dec 20000 (-6)) (dec 800 (-3))));
              "performance_improvement_factor" := VDec Decimal.NaN;
              "cost_reduction_factor" := VDec (dec 80 (-1));
              "quality_improvement_percent" := VDec (dec 1250 (-2)) ]}).
  - vm_compute. reflexivity.
  - left. vm_compute. reflexivity.
Defined.



(** ** The groups of the query *)

(** AVG over a column that is NULL in every row of the group is NULL. *)
Lemma sql_round_avg_null (k : Z) (column : list (option Decimal.num)) :
  (∀ x, x ∈ column → x = None) → sql_round_avg k column = None.
Proof.
  intros Hall. unfold sql_round_avg.
  assert (Hnil : omap id column = []).
  { induction column as [|x column IH]; [done|].
    rewrite (Hall x) by apply list_elem_of_here. cbn.
    apply IH. intros y Hy. apply Hall. by apply list_elem_of_further. }
  by rewrite Hnil.
Qed.

(** A RAG group none of whose queries has metrics, beside a CONTEXT_DUMP
    group, makes the analysis raise TypeError, in whatever order the query
    returns the groups: the mean response time of the RAG group is NULL. *)
Theorem queries_without_metrics_raise (metrics : list PerformanceMetrics) (rows : list row) :
  Some "RAG" ∈ method <$> metrics →
  Some "CONTEXT_DUMP" ∈ method <$> metrics →
  (∀ r, r ∈ metrics → method r = Some "RAG" → response_time_ms r = None) →
  query_returns metrics rows →
  analyze_rag_vs_context_dumping rows = Raise TypeError.
Proof.
  intros Hrag Hctx Hnull Hq. rewrite (analyze_returns _ _ Hq).
  unfold analyze_rag_vs_context_dumping. rewrite !next_with_method_fetch.
  rewrite !decide_True by done.
  unfold performance_improvement_factor at 1.
  cbn [avg_response_time_ms group_row].
  rewrite (sql_round_avg_null 2
             ((fun r => numeric_of_int (response_time_ms r))
                <$> filter (fun r => method r = Some "RAG") metrics)).
  - by destruct (sql_round_avg 2 _).
  - intros x Hx. apply list_elem_of_fmap in Hx as (r & -> & Hr).
    apply list_elem_of_filter in Hr as [Hm Hr]. by rewrite (Hnull r Hr Hm).
Qed.

Lemma queries_without_metrics_witness :
  analyze_rag_vs_context_dumping (fetch_performance_data rag_without_metrics)
  = Raise TypeError.
Proof.
  apply (queries_without_metrics_raise rag_without_metrics
           (fetch_performance_data rag_without_metrics)).
  - vm_compute. apply list_elem_of_here.
  - vm_compute. apply list_elem_of_further, list_elem_of_here.
  - intros r Hr Hm. vm_compute in Hr.
    apply elem_of_cons in Hr as [->|Hr]; [reflexivity|].
    apply list_elem_of_singleton in Hr as ->. discriminate Hm.
  - unfold query_returns. reflexivity.
Defined.

Lemma count_key_once {K} `{EqDecision K} (k : K) (ks : list K) :
  NoDup ks → k ∈ ks →
  foldr Z.add 0 ((fun k' => if decide (k = k') then 1 else 0) <$> ks) = 1.
Proof.
  induction ks as [|k' ks IH]; intros Hnd Hk; [by apply elem_of_nil in Hk|].
  apply NoDup_cons in Hnd as [Hk' Hnd]. rewrite fmap_cons. cbn [foldr].
  destruct (decide (k = k')) as [->|Hne].
  - assert (Hz : foldr Z.add 0 ((fun k'' => if decide (k' = k'') then 1 else 0) <$> ks) = 0).
    { clear IH Hnd Hk. induction ks as [|j ks IH]; [done|].
      apply not_elem_of_cons in Hk' as [Hj Hk']. rewrite fmap_cons. cbn [foldr].
      destruct (decide (k' = j)); [done|]. by rewrite IH. }
    lia.
  - apply elem_of_cons in Hk as [?|Hk]; [done|]. rewrite IH by done. lia.
Qed.

(** The sizes of the groups of a list add up to its length. *)
Lemma group_sizes {A K} `{EqDecision K} (f : A → K) (l : list A) (ks : list K) :
  NoDup ks → (∀ x, x ∈ l → f x ∈ ks) →
  foldr Z.add 0 ((fun k => Z.of_nat (length (filter (fun x => f x = k) l))) <$> ks)
  = Z.of_nat (length l).
Proof.
  intros Hnd. induction l as [|x l IH]; intros Hin.
  - clear Hnd Hin. induction ks as [|k ks IH]; [done|]. rewrite fmap_cons. cbn [foldr].
    by rewrite IH.
  - assert (Hsplit : ∀ ks' : list K,
        foldr Z.add 0 ((fun k => Z.of_nat (length (filter (fun y => f y = k) (x :: l)))) <$> ks')
        = foldr Z.add 0 ((fun k => if decide (f x = k) then 1 else 0) <$> ks')
          + foldr Z.add 0 ((fun k => Z.of_nat (length (filter (fun y => f y = k) l))) <$> ks')).
    { induction ks' as [|k ks' IH']; [done|]. rewrite !fmap_cons. cbn [foldr].
      rewrite IH', filter_cons. destruct (decide (f x = k)); cbn [length]; lia. }
    rewrite Hsplit, IH by (intros y Hy; apply Hin; by apply list_elem_of_further).
    rewrite count_key_once by (done || apply Hin, list_elem_of_here).
    cbn [length]. lia.
Qed.

(** The rows of the query: no two carry the same method, every row counts
    at least one joined row, and the counts add up to the number of joined
    rows. *)
Theorem fetched_groups (metrics : list PerformanceMetrics) :
  NoDup (processing_method <$> fetch_performance_data metrics)
  ∧ (∀ r, r ∈ fetch_performance_data metrics → 1 ≤ query_count r)
  ∧ foldr Z.add 0 (query_count <$> fetch_performance_data metrics)
    = Z.of_nat (length metrics).
Proof.
  unfold fetch_performance_data. split_and!.
  - rewrite <- list_fmap_compose.
    rewrite (list_fmap_ext _ id (remove_dups (method <$> metrics)))
      by (by intros).
    rewrite list_fmap_id. apply NoDup_remove_dups.
  - intros r Hr. apply list_elem_of_fmap in Hr as (k & -> & Hk).
    apply elem_of_remove_dups, list_elem_of_fmap in Hk as (x & -> & Hx).
    cbn [query_count group_row].
    assert (Hin : x ∈ filter (fun r => method r = method x) metrics)
      by (by apply list_elem_of_filter).
    destruct (filter (fun r => method r = method x) metrics);
      [by apply elem_of_nil in Hin|cbn [length]; lia].
  - rewrite <- list_fmap_compose.
    rewrite <- (group_sizes method metrics (remove_dups (method <$> metrics))).
    + done.
    + apply NoDup_remove_dups.
    + intros x Hx. apply elem_of_remove_dups. by apply list_elem_of_fmap_2.
Qed.

(** Whenever an ROI is computed from two Decimal factors, it is the int 900,
    minus infinity, or a finite Decimal that is at most 900. *)
Theorem roi_never_exceeds_cap (p c : Decimal.num) (roi : pyval) :
  roi_percent (VDec p) (VDec c) = Ok roi →
  roi = VInt 900 ∨ roi = VDec (Decimal.Inf true)
  ∨ ∃ d, roi = VDec (Decimal.Fin d) ∧ (to_Q d <= inject_Z 900)%Q.
Proof.
  unfold roi_percent. cbn [py_mul].
  destruct (Decimal.times p c) as [pc|]; [|discriminate].
  cbn [fmap result_fmap mbind result_bind py_mul].
  destruct (Decimal.times pc _) as [pc20|]; [|discriminate].
  cbn [fmap result_fmap mbind result_bind]. unfold py_min_int. cbn [py_int_lt].
  destruct pc20 as [x|[]|]; cbn [Decimal.gt mbind result_bind mret result_ret negb];
    try discriminate; try (intros [= <-]; by auto).
  pose proof (gtb_spec x (Decimal.of_int 900)) as Hgt.
  destruct (Decimal.gtb x (Decimal.of_int 900)); intros [= <-]; [by left|].
  right. right. exists x. split; [done|].
  apply Qnot_lt_le. intros Hlt.
  assert (H900 : (to_Q (Decimal.of_int 900) == inject_Z 900)%Q) by (by vm_compute).
  rewrite <- H900 in Hlt. apply Hgt in Hlt. discriminate.
Qed.

Lemma roi_cap_witness :
  VDec (dec 80000 (-2)) = VInt 900 ∨ VDec (dec 80000 (-2)) = VDec (Decimal.Inf true)
  ∨ ∃ d, VDec (dec 80000 (-2)) = VDec (Decimal.Fin d) ∧ (to_Q d <= inject_Z 900)%Q.
Proof.
  apply (roi_never_exceeds_cap (dec 50 (-1)) (dec 80 (-1)) (VDec (dec 80000 (-2)))).
  vm_compute. reflexivity.
Defined.
